(** * Mining pool coordinator (ironfish/src/mining/pool.ts)

    A shallow embedding of [MiningPool]: the submission pipeline
    ([submitWork]), epoch publication ([distributeNewBlock]), the retarget
    timer ([recalculateTarget]), the upstream connection loop
    ([startConnectingRpc], [onDisconnectRpc]), the lifecycle
    ([start], [stop]) and the hash-rate estimate ([estimateHashRate]).

    Conventions.
    - A JavaScript [number] that holds an integer counter, an identifier or
      a millisecond timestamp is a [Z] (exact on the safe-integer range);
      a [bigint] is a [Z].
    - A [Buffer] is a [list byte]; a hex string is a [string].
    - Objects that the code shares by reference (block templates) live in
      an object store and are named by their location.
    - Every call that leaves the coordinator (logger, stratum server, rpc
      client, share subsystem, webhooks, timers) is recorded in a trace,
      in program order, together with the coordinator state at the moment
      of the call. *)

From Stdlib Require Import ZArith NArith List String Ascii Lia Bool QArith Qround Lqa.
From Stdlib Require Import Init.Byte.
From stdpp Require Import base option list gmap.
Import ListNotations.

Local Open Scope Z_scope.

(** ** Buffers *)

Module Buffer.

Definition byte_val (b : byte) : Z := Z.of_N (Byte.to_N b).

Definition byte_of_Z (z : Z) : byte :=
  match Byte.of_N (Z.to_N (z mod 256)) with
  | Some b => b
  | None => x00
  end.

(** [buf.compare(other)]: -1, 0 or 1, byte-wise on unsigned values, a
    strict prefix sorting first. *)
Fixpoint compare (a b : list byte) : Z :=
  match a, b with
  | [], [] => 0
  | [], _ :: _ => -1
  | _ :: _, [] => 1
  | x :: a', y :: b' =>
      if byte_val x <? byte_val y then -1
      else if byte_val y <? byte_val x then 1
      else compare a' b'
  end.

(** The unsigned big-endian integer held by a buffer. *)
Definition be_value (bs : list byte) : Z :=
  fold_left (fun acc b => acc * 256 + byte_val b) bs 0.

(** The [size] low-order base-256 digits of [v], most significant first. *)
Fixpoint be_bytes (size : nat) (v : Z) : list byte :=
  match size with
  | O => []
  | S n => be_bytes n (v / 256) ++ [byte_of_Z v]
  end.

(** *** Hex transcoding *)

Definition hex_digit (n : Z) : ascii :=
  ascii_of_N (Z.to_N (if n <? 10 then 48 + n else 87 + n)).

Definition hex_val (c : ascii) : option Z :=
  let n := Z.of_N (N_of_ascii c) in
  if (48 <=? n) && (n <=? 57) then Some (n - 48)
  else if (97 <=? n) && (n <=? 102) then Some (n - 87)
  else if (65 <=? n) && (n <=? 70) then Some (n - 55)
  else None.

(** [buf.toString('hex')]: two lower-case digits per byte. *)
Fixpoint toString_hex (bs : list byte) : string :=
  match bs with
  | [] => EmptyString
  | b :: bs' =>
      String (hex_digit (byte_val b / 16))
        (String (hex_digit (byte_val b mod 16)) (toString_hex bs'))
  end.

(** [Buffer.from(s, 'hex')]: decodes pairs of hex digits and stops at the
    first pair that is not one (a trailing single character is dropped). *)
Fixpoint from_hex (s : string) : list byte :=
  match s with
  | String c1 (String c2 rest) =>
      match hex_val c1, hex_val c2 with
      | Some h, Some l => byte_of_Z (16 * h + l) :: from_hex rest
      | _, _ => []
      end
  | _ => []
  end.

End Buffer.

(** ** BigIntUtils *)

Module BigIntUtils.

(** Modelled from the spec: [BigIntUtils.fromBytes] (utils/bigint.ts is not
    among the sources); section 3 describes a target as a "32-byte
    big-endian unsigned integer", so the bytes are read big-endian. *)
Definition fromBytes (bs : list byte) : Z := Buffer.be_value bs.

(** Modelled from the spec: [BigIntUtils.toBytesBE(value, size)]
    (utils/bigint.ts is not among the sources): the big-endian image of
    [value] on [size] bytes, for [0 <= value < 256 ^ size], the range of
    a target. *)
Definition toBytesBE (value : Z) (size : nat) : list byte :=
  Buffer.be_bytes size value.

End BigIntUtils.

(** ** Data model *)

(** The header of a serialized block template. [rest] stands for the fields
    the coordinator never inspects. *)
Module Header.
Record t := mk {
  previousBlockHash : string;
  target : string;
  timestamp : Z;
  randomness : string;
  graffiti : string;
  rest : string
}.

Definition set_target (v : string) (h : t) : t :=
  mk (previousBlockHash h) v (timestamp h) (randomness h) (graffiti h) (rest h).
Definition set_timestamp (v : Z) (h : t) : t :=
  mk (previousBlockHash h) (target h) v (randomness h) (graffiti h) (rest h).
Definition set_randomness (v : string) (h : t) : t :=
  mk (previousBlockHash h) (target h) (timestamp h) v (graffiti h) (rest h).
Definition set_graffiti (v : string) (h : t) : t :=
  mk (previousBlockHash h) (target h) (timestamp h) (randomness h) v (rest h).
End Header.

Module PreviousBlockInfo.
Record t := mk { target : string; timestamp : Z }.
End PreviousBlockInfo.

Module SerializedBlockTemplate.
Record t := mk {
  header : Header.t;
  previousBlockInfo : option PreviousBlockInfo.t;
  rest : string
}.

Definition set_header (h : Header.t) (b : t) : t :=
  mk h (previousBlockInfo b) (rest b).
End SerializedBlockTemplate.

(** The part of a [StratumServerClient] that the coordinator reads. *)
Module StratumServerClient.
Record t := mk {
  id : Z;
  publicAddress : option string;
  graffiti : option (list byte);
  subscribed : bool
}.
End StratumServerClient.

(** A location of the object store. *)
Definition loc := nat.

(** ** The work cache *)

Module LRU.

(** Modelled from the spec: the store behind [miningRequestBlocks]
    (the package blru is not among the sources). Section 4.3: a bounded
    store keyed by request id; writes never fail, reads give the value or
    nothing, eviction is by recency of insertion and a read does not
    count. Entries are kept most recent first. *)
Record t (V : Type) := mk { capacity : nat; entries : list (Z * V) }.
Arguments mk {V}.
Arguments capacity {V}.
Arguments entries {V}.

Definition create {V} (capacity : nat) : t V := mk capacity [].

Definition get {V} (key : Z) (c : t V) : option V :=
  snd <$> List.find (fun e => fst e =? key) (entries c).

Definition set {V} (key : Z) (value : V) (c : t V) : t V :=
  mk (capacity c)
     (firstn (capacity c)
        ((key, value) :: List.filter (fun e => negb (fst e =? key)) (entries c))).

End LRU.

(** ** Coordinator state *)

Inductive TimerToken :=
| TimeoutToken (ms : Z)
| IntervalToken (ms : Z).

Record MiningPool := mkPool {
  webhooks : list nat;
  started : bool;
  stopResolve : bool;
  connectWarned : bool;
  connectTimeout : option TimerToken;
  name : string;
  nextMiningRequestId : Z;
  miningRequestBlocks : LRU.t loc;
  recentSubmissions : gmap Z (list string);
  difficulty : Z;
  target : list byte;
  currentHeadTimestamp : option Z;
  currentHeadDifficulty : option Z;
  recalculateTargetInterval : option TimerToken;
  notifyStatusInterval : option TimerToken;
  (** the object store: the block templates reachable from the coordinator,
      by location; a template object owns its header object *)
  heap : list SerializedBlockTemplate.t
}.

Definition set_started v (p : MiningPool) :=
  mkPool (webhooks p) v (stopResolve p) (connectWarned p) (connectTimeout p)
    (name p) (nextMiningRequestId p) (miningRequestBlocks p)
    (recentSubmissions p) (difficulty p) (target p) (currentHeadTimestamp p)
    (currentHeadDifficulty p) (recalculateTargetInterval p)
    (notifyStatusInterval p) (heap p).
Definition set_stopResolve v (p : MiningPool) :=
  mkPool (webhooks p) (started p) v (connectWarned p) (connectTimeout p)
    (name p) (nextMiningRequestId p) (miningRequestBlocks p)
    (recentSubmissions p) (difficulty p) (target p) (currentHeadTimestamp p)
    (currentHeadDifficulty p) (recalculateTargetInterval p)
    (notifyStatusInterval p) (heap p).
Definition set_connectWarned v (p : MiningPool) :=
  mkPool (webhooks p) (started p) (stopResolve p) v (connectTimeout p)
    (name p) (nextMiningRequestId p) (miningRequestBlocks p)
    (recentSubmissions p) (difficulty p) (target p) (currentHeadTimestamp p)
    (currentHeadDifficulty p) (recalculateTargetInterval p)
    (notifyStatusInterval p) (heap p).
Definition set_connectTimeout v (p : MiningPool) :=
  mkPool (webhooks p) (started p) (stopResolve p) (connectWarned p) v
    (name p) (nextMiningRequestId p) (miningRequestBlocks p)
    (recentSubmissions p) (difficulty p) (target p) (currentHeadTimestamp p)
    (currentHeadDifficulty p) (recalculateTargetInterval p)
    (notifyStatusInterval p) (heap p).
Definition set_nextMiningRequestId v (p : MiningPool) :=
  mkPool (webhooks p) (started p) (stopResolve p) (connectWarned p)
    (connectTimeout p) (name p) v (miningRequestBlocks p)
    (recentSubmissions p) (difficulty p) (target p) (currentHeadTimestamp p)
    (currentHeadDifficulty p) (recalculateTargetInterval p)
    (notifyStatusInterval p) (heap p).
Definition set_miningRequestBlocks v (p : MiningPool) :=
  mkPool (webhooks p) (started p) (stopResolve p) (connectWarned p)
    (connectTimeout p) (name p) (nextMiningRequestId p) v
    (recentSubmissions p) (difficulty p) (target p) (currentHeadTimestamp p)
    (currentHeadDifficulty p) (recalculateTargetInterval p)
    (notifyStatusInterval p) (heap p).
Definition set_recentSubmissions v (p : MiningPool) :=
  mkPool (webhooks p) (started p) (stopResolve p) (connectWarned p)
    (connectTimeout p) (name p) (nextMiningRequestId p) (miningRequestBlocks p)
    v (difficulty p) (target p) (currentHeadTimestamp p)
    (currentHeadDifficulty p) (recalculateTargetInterval p)
    (notifyStatusInterval p) (heap p).
Definition set_currentHeadTimestamp v (p : MiningPool) :=
  mkPool (webhooks p) (started p) (stopResolve p) (connectWarned p)
    (connectTimeout p) (name p) (nextMiningRequestId p) (miningRequestBlocks p)
    (recentSubmissions p) (difficulty p) (target p) v
    (currentHeadDifficulty p) (recalculateTargetInterval p)
    (notifyStatusInterval p) (heap p).
Definition set_currentHeadDifficulty v (p : MiningPool) :=
  mkPool (webhooks p) (started p) (stopResolve p) (connectWarned p)
    (connectTimeout p) (name p) (nextMiningRequestId p) (miningRequestBlocks p)
    (recentSubmissions p) (difficulty p) (target p) (currentHeadTimestamp p)
    v (recalculateTargetInterval p) (notifyStatusInterval p) (heap p).
Definition set_recalculateTargetInterval v (p : MiningPool) :=
  mkPool (webhooks p) (started p) (stopResolve p) (connectWarned p)
    (connectTimeout p) (name p) (nextMiningRequestId p) (miningRequestBlocks p)
    (recentSubmissions p) (difficulty p) (target p) (currentHeadTimestamp p)
    (currentHeadDifficulty p) v (notifyStatusInterval p) (heap p).
Definition set_notifyStatusInterval v (p : MiningPool) :=
  mkPool (webhooks p) (started p) (stopResolve p) (connectWarned p)
    (connectTimeout p) (name p) (nextMiningRequestId p) (miningRequestBlocks p)
    (recentSubmissions p) (difficulty p) (target p) (currentHeadTimestamp p)
    (currentHeadDifficulty p) (recalculateTargetInterval p) v (heap p).
Definition set_heap v (p : MiningPool) :=
  mkPool (webhooks p) (started p) (stopResolve p) (connectWarned p)
    (connectTimeout p) (name p) (nextMiningRequestId p) (miningRequestBlocks p)
    (recentSubmissions p) (difficulty p) (target p) (currentHeadTimestamp p)
    (currentHeadDifficulty p) (recalculateTargetInterval p)
    (notifyStatusInterval p) v.

(** ** Calls that leave the coordinator *)

Inductive Level := debug | info | warn | error.

Module MiningStatusMessage.
Record address_status := mkAddress {
  publicAddress : string;
  addressHashRate : Q;
  addressMiners : Z;
  addressSharesPending : Z
}.
Record t := mk {
  name : string;
  hashRate : Q;
  miners : Z;
  sharesPending : Z;
  banCount : Z;
  addressStatus : option address_status
}.
End MiningStatusMessage.

Inductive Message :=
| MsgStaleRequest (clientId miningRequestId : Z)
| MsgInvalidRequest (clientId miningRequestId : Z)
| MsgDuplicateRequest (clientId miningRequestId : Z) (randomness : string)
| MsgValidBlock
| MsgBlockSubmitted (hashedHeaderHex : string) (hashRate : Q)
| MsgBlockRejected (reason : string)
| MsgValidShare
| MsgStartingStratum
| MsgConnectingToNode
| MsgStoppingPool
| MsgFailedToConnect
| MsgConnected
| MsgListening
| MsgDisconnected
| MsgFatalError
| MsgRenderedError
| MsgRecalculatingTarget
| MsgSameTarget (newTarget : Z)
| MsgTargetRecalculated (prevHash : string)
| MsgPoolStatus (status : MiningStatusMessage.t).

(** The functions the coordinator hands to a timer or starts detached. *)
Inductive Callback := StartConnectingRpc | RecalculateTarget | NotifyStatus.

Inductive WebhookCall :=
| poolConnected
| poolDisconnected
| poolSubmittedBlock (hashedHeaderHex : string) (hashRate : Q) (clients : Z)
| poolStatus (status : MiningStatusMessage.t).

Inductive Event :=
| Log (level : Level) (msg : Message)
| SharesStart
| SharesStop
| SharesSubmitShare (publicAddress : string)
| SharesShareRate (publicAddress : option string)
| SharesPendingPayout (publicAddress : option string)
| StratumStart
| StratumStop
| StratumNewWork (miningRequestId : Z) (newBlock : loc)
| StratumWaitForWork
| PeersPunish (clientId : Z)
| RpcOnCloseOn
| RpcOnCloseOff
| RpcClose
| RpcTryConnect
| RpcBlockTemplateStream
| RpcSubmitBlock (blockTemplate : SerializedBlockTemplate.t)
| Webhook (notifier : nat) (call : WebhookCall)
| SetTimeout (callback : Callback) (ms : Z)
| SetInterval (callback : Callback) (ms : Z)
| ClearTimeout (token : TimerToken)
| ClearInterval (token : TimerToken)
| ResolveStop.

(** A trace entry: the call and the coordinator as the callee finds it. *)
Definition Trace := list (Event * MiningPool).

Definition events (tr : Trace) : list Event := map fst tr.

(** ** The coordinator monad: state, trace, exceptions *)

Inductive Outcome (A : Type) :=
| Returned (a : A)
| Thrown.
Arguments Returned {A}.
Arguments Thrown {A}.

Definition Pool (A : Type) : Type :=
  MiningPool -> Outcome A * MiningPool * Trace.

#[global] Instance Pool_ret : MRet Pool :=
  fun A a this => (Returned a, this, []).

#[global] Instance Pool_bind : MBind Pool :=
  fun A B f m this =>
    match m this with
    | (Returned a, this', tr) =>
        match f a this' with
        | (o, this'', tr') => (o, this'', tr ++ tr')
        end
    | (Thrown, this', tr) => (Thrown, this', tr)
    end.

Definition read : Pool MiningPool := fun this => (Returned this, this, []).

Definition modify (f : MiningPool -> MiningPool) : Pool unit :=
  fun this => (Returned tt, f this, []).

Definition call (e : Event) : Pool unit :=
  fun this => (Returned tt, this, [(e, this)]).

Definition throw {A} : Pool A := fun this => (Thrown, this, []).

(** [try { body } catch { handler }] *)
Definition try_catch (body handler : Pool unit) : Pool unit :=
  fun this =>
    match body this with
    | (Returned a, this', tr) => (Returned a, this', tr)
    | (Thrown, this', tr) =>
        match handler this' with
        | (o, this'', tr') => (o, this'', tr ++ tr')
        end
    end.

(** [Assert.isNotNull], [Assert.isNotUndefined]: throws on an absent value. *)
Definition Assert_isNotNull {A} (x : option A) : Pool A :=
  match x with
  | Some a => mret a
  | None => throw
  end.

(** [xs.map((x) => f(x))], for the calls it makes. *)
Fixpoint for_each {A} (xs : list A) (f : A -> Pool unit) : Pool unit :=
  match xs with
  | [] => mret tt
  | x :: xs' => f x;; for_each xs' f
  end.

Definition when (b : bool) (m : Pool unit) : Pool unit :=
  if b then m else mret tt.

Definition state_of {A} (r : Outcome A * MiningPool * Trace) : MiningPool :=
  snd (fst r).
Definition trace_of {A} (r : Outcome A * MiningPool * Trace) : Trace :=
  snd r.
Definition outcome_of {A} (r : Outcome A * MiningPool * Trace) : Outcome A :=
  fst (fst r).

(** ** What the coordinator takes from the chain library *)

(** Modelled from the spec: [blake3] (package @napi-rs/blake-hash),
    [mineableHeaderString] (mining/utils.ts) and the [Target] arithmetic
    (primitives/target.ts) are not among the sources. Sections 4.1 and 4.2
    give their contracts: the hash of a byte string is a 32-byte digest; the
    header encoder fails on a malformed header ([None]); [fromDifficulty]
    and [toDifficulty] convert between a difficulty and a target as an
    integer; [calculateDifficulty now previous difficulty] is the chain's
    retarget function. They are parameters of the development. *)
Class Chain := {
  blake3 : list byte -> list byte;
  mineableHeaderString : Header.t -> option (list byte);
  Target_fromDifficulty : Z -> Z;
  Target_toDifficulty : Z -> Z;
  Target_calculateDifficulty : Z -> Z -> Z -> Z
}.

Definition RECALCULATE_TARGET_TIMEOUT : Z := 10000.

(** ** The coordinator *)

Section MiningPool.
Context `{Chain}.

(** [new MiningPool(options)], with the two configuration values read by
    the constructor ([poolName], [poolDifficulty]). *)
Definition constructor (webhooks : list nat) (poolName : string)
    (poolDifficulty : Z) : MiningPool :=
  {| webhooks := webhooks;
     started := false;
     stopResolve := false;
     connectWarned := false;
     connectTimeout := None;
     name := poolName;
     nextMiningRequestId := 0;
     miningRequestBlocks := LRU.create 12;
     recentSubmissions := ∅;
     difficulty := poolDifficulty;
     target := BigIntUtils.toBytesBE (Target_fromDifficulty poolDifficulty) 32;
     currentHeadTimestamp := None;
     currentHeadDifficulty := None;
     recalculateTargetInterval := None;
     notifyStatusInterval := None;
     heap := [] |}.

Definition getTarget (this : MiningPool) : string :=
  Buffer.toString_hex (target this).

(** *** Submission deduper *)

Definition isDuplicateSubmission (this : MiningPool) (clientId : Z)
    (randomness : string) : bool :=
  match recentSubmissions this !! clientId with
  | None => false
  | Some submissions => bool_decide (randomness ∈ submissions)
  end.

Definition addWorkSubmission (clientId : Z) (randomness : string) : Pool unit :=
  modify (fun this =>
    match recentSubmissions this !! clientId with
    | None =>
        set_recentSubmissions
          (<[clientId := [randomness]]> (recentSubmissions this)) this
    | Some submissions =>
        set_recentSubmissions
          (<[clientId := submissions ++ [randomness]]> (recentSubmissions this))
          this
    end).

(** *** Hash rate *)

(** The arithmetic of [estimateHashRate]. The share rate, a double in the
    source, is a rational here, and the conversion of the product back to
    a double is taken as exact. *)
Definition hashRate_of (shareRate : Q) (difficulty : Z) : Q :=
  let decimalPrecision := 1000000 in
  (inject_Z (Qfloor (shareRate * inject_Z decimalPrecision) * difficulty)
     / inject_Z decimalPrecision)%Q.

(** [estimateHashRate(publicAddress)]; [shareRate] is what
    [shares.shareRate(publicAddress)] resolves to. *)
Definition estimateHashRate (publicAddress : option string) (shareRate : Q)
    : Pool Q :=
  call (SharesShareRate publicAddress);;
  this ← read;
  mret (hashRate_of shareRate (difficulty this)).

(** *** Publishing an epoch *)

Definition distributeNewBlock (newBlock : loc) : Pool unit :=
  this ← read;
  _ ← Assert_isNotNull (currentHeadTimestamp this);
  _ ← Assert_isNotNull (currentHeadDifficulty this);
  let miningRequestId := nextMiningRequestId this in
  modify (set_nextMiningRequestId (miningRequestId + 1));;
  modify (fun this =>
    set_miningRequestBlocks
      (LRU.set miningRequestId newBlock (miningRequestBlocks this)) this);;
  modify (set_recentSubmissions ∅);;
  call (StratumNewWork miningRequestId newBlock).

(** *** Submission handling *)

(** What the awaited calls of one [submitWork] resolve to. *)
Record SubmitWorkReplies := mkReplies {
  added : bool;
  reason : string;
  shareRate : Q;
  clients_size : Z
}.

(** [submitWork(client, miningRequestId, randomness)]. The coordinator's
    mutable fields are read and written before the first [await] only, so
    the body is run in one piece. A cached location with no object behind
    it reads as an absent template. *)
Definition submitWork (client : StratumServerClient.t) (miningRequestId : Z)
    (randomness : string) (replies : SubmitWorkReplies) : Pool unit :=
  publicAddress ← Assert_isNotNull (StratumServerClient.publicAddress client);
  graffiti ← Assert_isNotNull (StratumServerClient.graffiti client);
  this ← read;
  let clientId := StratumServerClient.id client in
  if negb (miningRequestId =? nextMiningRequestId this - 1) then
    call (Log debug (MsgStaleRequest clientId miningRequestId))
  else
    match LRU.get miningRequestId (miningRequestBlocks this)
            ≫= (fun l => heap this !! l) with
    | None => call (Log warn (MsgInvalidRequest clientId miningRequestId))
    | Some originalBlockTemplate =>
        if isDuplicateSubmission this clientId randomness then
          call (Log warn (MsgDuplicateRequest clientId miningRequestId randomness))
        else
          addWorkSubmission clientId randomness;;
          let header :=
            Header.set_randomness randomness
              (Header.set_graffiti (Buffer.toString_hex graffiti)
                 (SerializedBlockTemplate.header originalBlockTemplate)) in
          let blockTemplate :=
            SerializedBlockTemplate.set_header header originalBlockTemplate in
          match mineableHeaderString header with
          | None => call (PeersPunish clientId)
          | Some headerBytes =>
              let hashedHeader := blake3 headerBytes in
              when (negb (Buffer.compare hashedHeader
                            (Buffer.from_hex (Header.target header)) =? 1))
                (call (Log debug MsgValidBlock);;
                 call (RpcSubmitBlock blockTemplate);;
                 if added replies then
                   hashRate ← estimateHashRate None (shareRate replies);
                   let hashedHeaderHex := Buffer.toString_hex hashedHeader in
                   call (Log info (MsgBlockSubmitted hashedHeaderHex hashRate));;
                   this ← read;
                   for_each (webhooks this) (fun w =>
                     call (Webhook w (poolSubmittedBlock hashedHeaderHex
                                        hashRate (clients_size replies))))
                 else
                   call (Log info (MsgBlockRejected (reason replies))));;
              this ← read;
              when (negb (Buffer.compare hashedHeader (target this) =? 1))
                (call (Log debug MsgValidShare);;
                 call (SharesSubmitShare publicAddress))
          end
    end.

(** *** The paths of a submission *)

(** The coordinator once [addWorkSubmission] has run. *)
Definition recorded (clientId : Z) (randomness : string) (this : MiningPool)
    : MiningPool :=
  state_of (addWorkSubmission clientId randomness this).

(** The header a submission is hashed over, and the template it would
    send upstream. *)
Definition composed_header (graffiti : list byte) (randomness : string)
    (original : SerializedBlockTemplate.t) : Header.t :=
  Header.set_randomness randomness
    (Header.set_graffiti (Buffer.toString_hex graffiti)
       (SerializedBlockTemplate.header original)).

Definition composed_template (graffiti : list byte) (randomness : string)
    (original : SerializedBlockTemplate.t) : SerializedBlockTemplate.t :=
  SerializedBlockTemplate.set_header
    (composed_header graffiti randomness original) original.

(** The calls of the block check, made in the coordinator [this]. *)
Definition block_path (this : MiningPool) (replies : SubmitWorkReplies)
    (blockTemplate : SerializedBlockTemplate.t) (hashedHeader : list byte)
    : Trace :=
  [(Log debug MsgValidBlock, this); (RpcSubmitBlock blockTemplate, this)]
  ++ (if added replies then
        let hashRate := hashRate_of (shareRate replies) (difficulty this) in
        let hashedHeaderHex := Buffer.toString_hex hashedHeader in
        [(SharesShareRate None, this);
         (Log info (MsgBlockSubmitted hashedHeaderHex hashRate), this)]
        ++ map (fun w => (Webhook w (poolSubmittedBlock hashedHeaderHex
                                       hashRate (clients_size replies)),
                          this))
             (webhooks this)
      else [(Log info (MsgBlockRejected (reason replies)), this)]).

(** The calls of the share check. *)
Definition share_path (this : MiningPool) (publicAddress : string) : Trace :=
  [(Log debug MsgValidShare, this); (SharesSubmitShare publicAddress, this)].

(** What [submitWork] does with a submission once it is recorded, the
    coordinator then being [this]: encode, hash, block check, share
    check. *)
Definition on_its_merits (clientId : Z) (publicAddress : string)
    (graffiti : list byte) (randomness : string) (replies : SubmitWorkReplies)
    (original : SerializedBlockTemplate.t) (this : MiningPool)
    : Outcome unit * MiningPool * Trace :=
  match mineableHeaderString (composed_header graffiti randomness original) with
  | None => (Returned tt, this, [(PeersPunish clientId, this)])
  | Some headerBytes =>
      let hashedHeader := blake3 headerBytes in
      (Returned tt, this,
       (if Buffer.compare hashedHeader
             (Buffer.from_hex
                (Header.target (SerializedBlockTemplate.header original)))
           =? 1
        then []
        else block_path this replies
               (composed_template graffiti randomness original) hashedHeader)
       ++ (if Buffer.compare hashedHeader (target this) =? 1
           then []
           else share_path this publicAddress))
  end.

(** *** Target recalculation *)

Definition restartCalculateTargetInterval : Pool unit :=
  this ← read;
  match recalculateTargetInterval this with
  | Some token => call (ClearInterval token)
  | None => mret tt
  end;;
  call (SetInterval RecalculateTarget RECALCULATE_TARGET_TIMEOUT);;
  modify (set_recalculateTargetInterval
            (Some (IntervalToken RECALCULATE_TARGET_TIMEOUT))).

(** [latestBlock.header.target = ...; latestBlock.header.timestamp = ...]:
    the object at [l] is changed where it stands. *)
Definition retarget_in_place (l : loc) (newTarget : Z) (newTime : Z)
    : Pool unit :=
  modify (fun this =>
    match heap this !! l with
    | None => this
    | Some latestBlock =>
        let header :=
          Header.set_timestamp newTime
            (Header.set_target
               (Buffer.toString_hex (BigIntUtils.toBytesBE newTarget 32))
               (SerializedBlockTemplate.header latestBlock)) in
        set_heap
          (<[l := SerializedBlockTemplate.set_header header latestBlock]>
             (heap this)) this
    end).

(** [recalculateTarget()]; [newTime] is what [new Date()] gives, in ms. *)
Definition recalculateTarget (newTime : Z) : Pool unit :=
  call (Log debug MsgRecalculatingTarget);;
  this ← read;
  headTimestamp ← Assert_isNotNull (currentHeadTimestamp this);
  headDifficulty ← Assert_isNotNull (currentHeadDifficulty this);
  l ← Assert_isNotNull
        (LRU.get (nextMiningRequestId this - 1) (miningRequestBlocks this));
  latestBlock ← Assert_isNotNull (heap this !! l);
  let newTarget :=
    Target_fromDifficulty
      (Target_calculateDifficulty newTime headTimestamp headDifficulty) in
  let existingTarget :=
    BigIntUtils.fromBytes
      (Buffer.from_hex
         (Header.target (SerializedBlockTemplate.header latestBlock))) in
  if newTarget =? existingTarget then
    call (Log debug (MsgSameTarget newTarget))
  else
    retarget_in_place l newTarget newTime;;
    distributeNewBlock l;;
    call (Log debug (MsgTargetRecalculated
            (Header.previousBlockHash
               (SerializedBlockTemplate.header latestBlock)))).

(** *** Template ingestion *)

(** [processNewBlocks()] up to its first suspension: the request for the
    template stream. *)
Definition processNewBlocks : Pool unit :=
  call RpcBlockTemplateStream.

(** The body of the [for await] loop of [processNewBlocks] for one
    [payload]. The payload is a new object: it enters the store first. *)
Definition processNewBlocks_body (payload : SerializedBlockTemplate.t)
    : Pool unit :=
  this ← read;
  let l := length (heap this) in
  modify (fun this => set_heap (heap this ++ [payload]) this);;
  previousBlockInfo ←
    Assert_isNotNull (SerializedBlockTemplate.previousBlockInfo payload);
  restartCalculateTargetInterval;;
  let currentHeadTarget :=
    BigIntUtils.fromBytes
      (Buffer.from_hex (PreviousBlockInfo.target previousBlockInfo)) in
  modify (set_currentHeadDifficulty
            (Some (Target_toDifficulty currentHeadTarget)));;
  modify (set_currentHeadTimestamp
            (Some (PreviousBlockInfo.timestamp previousBlockInfo)));;
  distributeNewBlock l.

(** *** Lifecycle *)

(** [startConnectingRpc()] up to its first suspension. *)
Definition startConnectingRpc : Pool unit :=
  call RpcTryConnect.

(** [start()]; [statusInterval] is the configured
    [poolStatusNotificationInterval]. *)
Definition start (statusInterval : Z) : Pool unit :=
  this ← read;
  if started this then mret tt
  else
    modify (set_stopResolve true);;
    modify (set_started true);;
    call SharesStart;;
    call (Log info MsgStartingStratum);;
    call StratumStart;;
    call (Log info MsgConnectingToNode);;
    call RpcOnCloseOn;;
    when (0 <? statusInterval)
      (call (SetInterval NotifyStatus (statusInterval * 1000));;
       modify (set_notifyStatusInterval
                 (Some (IntervalToken (statusInterval * 1000)))));;
    startConnectingRpc.

Definition stop : Pool unit :=
  this ← read;
  if negb (started this) then mret tt
  else
    call (Log debug MsgStoppingPool);;
    modify (set_started false);;
    call RpcOnCloseOff;;
    call RpcClose;;
    call StratumStop;;
    call SharesStop;;
    this ← read;
    when (stopResolve this) (call ResolveStop);;
    match connectTimeout this with
    | Some token => call (ClearTimeout token)
    | None => mret tt
    end;;
    match recalculateTargetInterval this with
    | Some token => call (ClearInterval token)
    | None => mret tt
    end;;
    match notifyStatusInterval this with
    | Some token => call (ClearInterval token)
    | None => mret tt
    end.

(** The [for await] loop of [processNewBlocks] for one [payload], under
    the handler that [startConnectingRpc] attaches to it. *)
Definition processNewBlocks_step (payload : SerializedBlockTemplate.t)
    : Pool unit :=
  try_catch (processNewBlocks_body payload)
    (call (Log error MsgFatalError);;
     call (Log error MsgRenderedError);;
     stop).

(** *** Upstream connection loop *)

(** [startConnectingRpc()] from the point where [rpc.tryConnect()] has
    resolved to [connected]. *)
Definition startConnectingRpc_resume (connected : bool) : Pool unit :=
  this ← read;
  if negb (started this) then mret tt
  else if negb connected then
    when (negb (connectWarned this))
      (call (Log warn MsgFailedToConnect);;
       modify (set_connectWarned true));;
    call (SetTimeout StartConnectingRpc 5000);;
    modify (set_connectTimeout (Some (TimeoutToken 5000)))
  else
    this ← read;
    for_each (webhooks this) (fun w => call (Webhook w poolConnected));;
    modify (set_connectWarned false);;
    call (Log info MsgConnected);;
    call (Log info MsgListening);;
    processNewBlocks.

Definition onDisconnectRpc : Pool unit :=
  call StratumWaitForWork;;
  call (Log info MsgDisconnected);;
  this ← read;
  for_each (webhooks this) (fun w => call (Webhook w poolDisconnected));;
  startConnectingRpc.

(** *** Status *)

(** What the awaited and external reads of one [getStatus] give. *)
Record StatusReplies := mkStatusReplies {
  poolShareRate : Q;
  poolSharesPending : Z;
  addressShareRate : Q;
  addressSharesPending : Z;
  clients : list StratumServerClient.t;
  banCount : Z
}.

Definition getStatus (publicAddress : option string)
    (replies : StatusReplies) : Pool MiningStatusMessage.t :=
  hashRate ← estimateHashRate None (poolShareRate replies);
  call (SharesPendingPayout None);;
  let subscribed := List.filter StratumServerClient.subscribed (clients replies) in
  let minerCount := Z.of_nat (length subscribed) in
  let addressMinerCount :=
    Z.of_nat (length (List.filter
      (fun c => match StratumServerClient.publicAddress c, publicAddress with
                | Some a, Some b => bool_decide (a = b)
                | _, _ => false
                end)
      subscribed)) in
  this ← read;
  let status addressStatus :=
    MiningStatusMessage.mk (name this) hashRate minerCount
      (poolSharesPending replies) (banCount replies) addressStatus in
  match publicAddress with
  | Some address =>
      if bool_decide (address = EmptyString) then mret (status None)
      else
        addressHashRate ←
          estimateHashRate (Some address) (addressShareRate replies);
        call (SharesPendingPayout (Some address));;
        mret (status (Some (MiningStatusMessage.mkAddress address
                addressHashRate addressMinerCount
                (addressSharesPending replies))))
  | None => mret (status None)
  end.

Definition notifyStatus (replies : StatusReplies) : Pool unit :=
  status ← getStatus None replies;
  call (Log debug (MsgPoolStatus status));;
  this ← read;
  for_each (webhooks this) (fun w => call (Webhook w (poolStatus status))).

(** ** The coordinator as a reactive system *)

(** What can happen to a constructed coordinator: a call of its public
    interface, a resolved connection attempt, a fired timer, a close
    signal or an item of the template stream. *)
Inductive Op :=
| OpStart (statusInterval : Z)
| OpStop
| OpSubmitWork (client : StratumServerClient.t) (miningRequestId : Z)
    (randomness : string) (replies : SubmitWorkReplies)
| OpConnectResolved (connected : bool)
| OpConnectTimeout
| OpRpcClosed
| OpTemplate (payload : SerializedBlockTemplate.t)
| OpRecalculateTimer (newTime : Z)
| OpStatusTimer (replies : StatusReplies).

Definition handler (op : Op) : Pool unit :=
  match op with
  | OpStart statusInterval => start statusInterval
  | OpStop => stop
  | OpSubmitWork client miningRequestId randomness replies =>
      submitWork client miningRequestId randomness replies
  | OpConnectResolved connected => startConnectingRpc_resume connected
  | OpConnectTimeout => startConnectingRpc
  | OpRpcClosed => onDisconnectRpc
  | OpTemplate payload => processNewBlocks_step payload
  | OpRecalculateTimer newTime => recalculateTarget newTime
  | OpStatusTimer replies => notifyStatus replies
  end.

(** Handlers run one after the other on the single executor. An exception
    ends the handler that raised it; a host that ends the process there
    has run a prefix of [ops], and what is proved for every [ops] covers
    that prefix. *)
Fixpoint run (ops : list Op) (this : MiningPool) : MiningPool * Trace :=
  match ops with
  | [] => (this, [])
  | op :: ops' =>
      match handler op this with
      | (_, this', tr) =>
          match run ops' this' with
          | (this'', tr') => (this'', tr ++ tr')
          end
      end
  end.

(** The epochs published along a trace, oldest first. *)
Fixpoint published (tr : Trace) : list (Z * loc) :=
  match tr with
  | [] => []
  | (StratumNewWork miningRequestId newBlock, _) :: tr' =>
      (miningRequestId, newBlock) :: published tr'
  | _ :: tr' => published tr'
  end.

Definition count_events (P : Event -> bool) (tr : Trace) : nat :=
  length (List.filter P (events tr)).

Definition is_share_credit (e : Event) : bool :=
  match e with SharesSubmitShare _ => true | _ => false end.
Definition is_block_submission (e : Event) : bool :=
  match e with RpcSubmitBlock _ => true | _ => false end.
Definition is_punishment (e : Event) : bool :=
  match e with PeersPunish _ => true | _ => false end.
Definition is_warning (e : Event) : bool :=
  match e with Log warn _ => true | _ => false end.
Definition is_poolDisconnected (e : Event) : bool :=
  match e with Webhook _ poolDisconnected => true | _ => false end.
Definition is_retry (e : Event) : bool :=
  match e with SetTimeout StartConnectingRpc 5000 => true | _ => false end.

End MiningPool.

(** ** Relations and invariants *)

(** A relation between the coordinator before a computation, the
    coordinator after it and the calls made in between. *)
Definition Rel := MiningPool -> MiningPool -> Trace -> Prop.

Class Composable (R : Rel) := {
  rel_refl : forall this, R this this [];
  rel_trans : forall s1 s2 s3 t1 t2,
    R s1 s2 t1 -> R s2 s3 t2 -> R s1 s3 (t1 ++ t2)
}.

Definition respects {A} (R : Rel) (m : Pool A) : Prop :=
  forall this, R this (state_of (m this)) (trace_of (m this)).

(** The counter moves by one per published epoch, and the epochs published
    carry the consecutive ids from its old value on. *)
Definition counts_epochs : Rel := fun this this' tr =>
  nextMiningRequestId this'
    = nextMiningRequestId this + Z.of_nat (length (published tr))
  /\ (published tr).*1
     = seqZ (nextMiningRequestId this) (Z.of_nat (length (published tr))).

(** Every broadcast of new work finds the deduper already reset and the
    counter already past the id it announces. *)
Definition broadcast_after_reset : Rel := fun _ _ tr =>
  Forall (fun entry =>
            match fst entry with
            | StratumNewWork miningRequestId _ =>
                recentSubmissions (snd entry) = ∅
                /\ nextMiningRequestId (snd entry) = miningRequestId + 1
            | _ => True
            end) tr.

(** What a computation that publishes no epoch leaves alone: the counter,
    the work cache, the objects already in the store, and the submissions
    already recorded. *)
Definition within_epoch : Rel := fun this this' tr =>
  published tr = [] ->
  nextMiningRequestId this' = nextMiningRequestId this
  /\ miningRequestBlocks this' = miningRequestBlocks this
  /\ heap this `prefix_of` heap this'
  /\ forall clientId randomness,
       isDuplicateSubmission this clientId randomness = true ->
       isDuplicateSubmission this' clientId randomness = true.

(** The ids in the work cache are ids that were handed out. *)
Definition ids_handed_out (this : MiningPool) : Prop :=
  0 <= nextMiningRequestId this
  /\ Forall (fun entry => 0 <= fst entry < nextMiningRequestId this)
       (LRU.entries (miningRequestBlocks this)).

Definition keeps_ids_handed_out : Rel := fun this this' _ =>
  ids_handed_out this -> ids_handed_out this'.

(** What never changes after construction. *)
Definition keeps_constants : Rel := fun this this' _ =>
  target this' = target this
  /\ difficulty this' = difficulty this
  /\ webhooks this' = webhooks this
  /\ LRU.capacity (miningRequestBlocks this')
     = LRU.capacity (miningRequestBlocks this).

(** [n] connection attempts in a row that fail: each resolves to [false],
    and the timer it armed fires and starts the next one. *)
Fixpoint failed_attempts (n : nat) : list Op :=
  match n with
  | O => []
  | S n' => OpConnectResolved false :: OpConnectTimeout :: failed_attempts n'
  end.

(** A submission is either dropped, leaving the coordinator as it was and
    reaching neither the node, the share subsystem nor the ban list, or
    it is accepted: recorded, then taken on its merits. *)
Definition dropped (r : Outcome unit * MiningPool * Trace)
    (this : MiningPool) : Prop :=
  state_of r = this
  /\ List.filter is_block_submission (events (trace_of r)) = []
  /\ List.filter is_share_credit (events (trace_of r)) = []
  /\ List.filter is_punishment (events (trace_of r)) = [].

(** The pool target and the header target of every template in the store
    decode to 32 bytes. *)
Definition targets_are_32_bytes (this : MiningPool) : Prop :=
  length (target this) = 32%nat
  /\ Forall (fun b =>
               length (Buffer.from_hex
                         (Header.target (SerializedBlockTemplate.header b)))
               = 32%nat)
       (heap this).

Definition keeps_targets_32_bytes : Rel := fun this this' _ =>
  targets_are_32_bytes this -> targets_are_32_bytes this'.

(** A template of the upstream stream whose header target is 32 bytes in
    hex. *)
Definition wellformed_payload (op : Op) : Prop :=
  match op with
  | OpTemplate payload =>
      length (Buffer.from_hex
                (Header.target (SerializedBlockTemplate.header payload)))
      = 32%nat
  | _ => True
  end.

(** ** A concrete chain and coordinator, for closed instances *)

Module Scenario.

(** A stand-in chain library: the digest of a byte string is its value on
    32 bytes, a header encodes to its nonce when the nonce has 16
    characters, target and difficulty are reciprocal through [2 ^ 256],
    and the difficulty falls by one per minute since the head. *)
Definition chain : Chain := {|
  blake3 := fun bs => Buffer.be_bytes 32 (Buffer.be_value bs);
  mineableHeaderString := fun h =>
    if (String.length (Header.randomness h) =? 16)%nat
    then Some (Buffer.from_hex (Header.randomness h))
    else None;
  Target_fromDifficulty := fun d => if d =? 1 then 2 ^ 256 - 1 else 2 ^ 256 / d;
  Target_toDifficulty := fun t => 2 ^ 256 / t;
  Target_calculateDifficulty := fun now previous d =>
    Z.max 1 (d - (now - previous) / 60000)
|}.

Definition hex32 (v : Z) : string :=
  Buffer.toString_hex (BigIntUtils.toBytesBE v 32).

(** A template whose header target is [2 ^ 16], on a head of target
    [2 ^ 240] (difficulty [65536]) stamped 500. *)
Definition template : SerializedBlockTemplate.t :=
  SerializedBlockTemplate.mk
    (Header.mk "aa" (hex32 (2 ^ 16)) 1000 "" "" "")
    (Some (PreviousBlockInfo.mk (hex32 (2 ^ 240)) 500))
    "".

(** A pool of difficulty [65536]: its share target is [2 ^ 240]. *)
Definition fresh : MiningPool := @constructor chain [7%nat] "pool" 65536.

(** The pool started, connected, and with [template] published as epoch 0. *)
Definition streaming : MiningPool :=
  fst (@run chain [OpStart 0; OpConnectResolved true; OpTemplate template] fresh).

Definition miner : StratumServerClient.t :=
  StratumServerClient.mk 3 (Some "addr"%string) (Some (Buffer.be_bytes 32 5)) true.

Definition replies : SubmitWorkReplies := mkReplies true EmptyString (1 # 2) 1.

(** A nonce whose digest, 255, meets both the header target and the share
    target, and one whose digest, [2 ^ 24 - 1], meets the share target
    only. *)
Definition nonce : string := "00000000000000ff".
Definition share_nonce : string := "0000000000ffffff".

(** [streaming] after a second template: the current epoch is 1. *)
Definition second_epoch : MiningPool :=
  fst (@run chain [OpTemplate template] streaming).

(** [streaming] after the retarget timer fired at 100000 ms: the
    difficulty fell to 65535, epoch 0 was retargeted and reissued as
    epoch 1. *)
Definition retargeted : MiningPool :=
  fst (@run chain [OpRecalculateTimer 100000] streaming).

(** [fresh] once started: the first connection attempt is pending. *)
Definition connecting : MiningPool := fst (@run chain [OpStart 0] fresh).

End Scenario.

(** ** Further relations and invariants *)

(** A call that reaches the node with a block, the share subsystem with a
    credit, or the ban list. *)
Definition is_verdict (e : Event) : bool :=
  is_share_credit e || is_block_submission e || is_punishment e.


Definition is_poolStatus (e : Event) : bool :=
  match e with Webhook _ (poolStatus _) => true | _ => false end.

Definition is_submission (op : Op) : bool :=
  match op with OpSubmitWork _ _ _ _ => true | _ => false end.

(** A computation that passes no verdict on a miner's work. *)
Definition passes_no_verdict : Rel := fun _ _ tr =>
  List.filter is_verdict (events tr) = [].

(** The work cache against the counter and the store: no id in it that was
    not handed out, no location in it without a template. *)
Definition cache_live (this : MiningPool) : Prop :=
  0 <= nextMiningRequestId this
  /\ LRU.capacity (miningRequestBlocks this) = 12%nat
  /\ Forall (fun entry =>
               0 <= fst entry < nextMiningRequestId this
               /\ (snd entry < length (heap this))%nat)
       (LRU.entries (miningRequestBlocks this)).

(** How the counter, the head, the work cache and the store hang together
    between two handlers: the cache is live, the head is known and the
    retarget interval armed only once an epoch was published, and the
    current epoch is then the most recent entry of the cache. *)
Definition coherent (this : MiningPool) : Prop :=
  cache_live this
  /\ (nextMiningRequestId this = 0 ->
      currentHeadTimestamp this = None
      /\ currentHeadDifficulty this = None
      /\ recalculateTargetInterval this = None)
  /\ (0 < nextMiningRequestId this ->
      is_Some (currentHeadTimestamp this)
      /\ is_Some (currentHeadDifficulty this)
      /\ exists l rest,
           LRU.entries (miningRequestBlocks this)
           = (nextMiningRequestId this - 1, l) :: rest).

Definition keeps_coherent : Rel := fun this this' _ =>
  coherent this -> coherent this'.

(** ** Facts about buffers *)

Section BufferFacts.
Import Buffer.

Lemma byte_val_range b : 0 <= byte_val b < 256.
Proof.
  unfold byte_val. pose proof (Byte.to_N_bounded b) as H.
  split; [apply N2Z.is_nonneg|]. lia.
Qed.

Lemma byte_val_inj a b : byte_val a = byte_val b -> a = b.
Proof.
  unfold byte_val. intros H. apply N2Z.inj in H.
  apply (f_equal Byte.of_N) in H. rewrite !Byte.of_to_N in H. congruence.
Qed.

Lemma byte_of_Z_val z : 0 <= z < 256 -> byte_val (byte_of_Z z) = z.
Proof.
  intros Hz. unfold byte_of_Z, byte_val.
  rewrite Z.mod_small by lia.
  destruct (Byte.of_N (Z.to_N z)) as [b|] eqn:E.
  - apply Byte.to_of_N in E. rewrite E. lia.
  - apply Byte.of_N_None_iff in E. lia.
Qed.

Lemma byte_of_Z_mod z : byte_val (byte_of_Z z) = z mod 256.
Proof.
  pose proof (Z.mod_pos_bound z 256 ltac:(lia)) as H.
  rewrite <- (byte_of_Z_val (z mod 256)) by lia.
  unfold byte_of_Z. now rewrite Z.mod_mod by lia.
Qed.

Lemma be_value_fold acc bs :
  fold_left (fun acc b => acc * 256 + byte_val b) bs acc
  = acc * 256 ^ Z.of_nat (length bs) + be_value bs.
Proof.
  unfold be_value. revert acc.
  induction bs as [|b bs IH]; intros acc; cbn [fold_left length].
  - change (Z.of_nat 0) with 0. lia.
  - rewrite IH, (IH (0 * 256 + byte_val b)).
    rewrite Nat2Z.inj_succ, Z.pow_succ_r by lia. ring.
Qed.


Lemma be_value_app a b :
  be_value (a ++ b) = be_value a * 256 ^ Z.of_nat (length b) + be_value b.
Proof.
  unfold be_value at 1. rewrite fold_left_app.
  fold (be_value a). apply be_value_fold.
Qed.


End BufferFacts.

Section BufferCompare.
Import Buffer.



Lemma be_bytes_length n v : length (be_bytes n v) = n.
Proof.
  revert v. induction n as [|n IH]; intros v; cbn [be_bytes].
  - reflexivity.
  - rewrite length_app, IH. cbn. lia.
Qed.

Lemma be_value_be_bytes n v :
  be_value (be_bytes n v) = v mod 256 ^ Z.of_nat n.
Proof.
  revert v. induction n as [|n IH]; intros v; cbn [be_bytes].
  - cbn. now rewrite Z.mod_1_r.
  - rewrite be_value_app, IH.
    change (Z.of_nat (length [byte_of_Z v])) with 1.
    change (be_value [byte_of_Z v]) with (0 * 256 + byte_val (byte_of_Z v)).
    rewrite byte_of_Z_mod, Z.pow_1_r.
    rewrite Nat2Z.inj_succ, Z.pow_succ_r by lia.
    rewrite Z.rem_mul_r by lia.
    lia.
Qed.

Lemma be_value_be_bytes_small n v :
  0 <= v < 256 ^ Z.of_nat n -> be_value (be_bytes n v) = v.
Proof. intros Hv. rewrite be_value_be_bytes. now apply Z.mod_small. Qed.

Lemma hex_val_digit n : 0 <= n < 16 -> hex_val (hex_digit n) = Some n.
Proof.
  intros Hn.
  assert (forallb (fun k => match hex_val (hex_digit k) with
                            | Some m => m =? k
                            | None => false
                            end)
            (map Z.of_nat (seq 0 16)) = true) as Hall by reflexivity.
  rewrite forallb_forall in Hall. specialize (Hall n).
  assert (In n (map Z.of_nat (seq 0 16))) as Hin.
  { rewrite <- (Z2Nat.id n) by lia. apply in_map, in_seq. lia. }
  specialize (Hall Hin).
  destruct (hex_val (hex_digit n)) as [m|]; [|discriminate].
  apply Z.eqb_eq in Hall. congruence.
Qed.

(** Decoding what [toString('hex')] wrote gives the buffer back. *)
Lemma from_hex_toString_hex bs : from_hex (toString_hex bs) = bs.
Proof.
  induction bs as [|b bs IH]; [reflexivity|].
  cbn [toString_hex from_hex].
  pose proof (byte_val_range b) as Hb.
  rewrite !hex_val_digit
    by (try apply Z.mod_pos_bound; try (split; [apply Z.div_pos|apply Z.div_lt_upper_bound]); lia).
  rewrite IH. f_equal.
  apply byte_val_inj. rewrite byte_of_Z_val.
  - pose proof (Z_div_mod_eq_full (byte_val b) 16). lia.
  - pose proof (Z.mod_pos_bound (byte_val b) 16 ltac:(lia)).
    assert (0 <= byte_val b / 16 < 16)
      by (split; [apply Z.div_pos|apply Z.div_lt_upper_bound]; lia).
    lia.
Qed.

End BufferCompare.

(** ** Reasoning about handlers *)

Section Respects.
Context (R : Rel) `{!Composable R}.

Lemma respects_ret {A} (a : A) : respects R (mret a).
Proof. intros this. apply rel_refl. Qed.

Lemma respects_read : respects R read.
Proof. intros this. apply rel_refl. Qed.

Lemma respects_throw {A} : respects R (@throw A).
Proof. intros this. apply rel_refl. Qed.

Lemma respects_bind {A B} (m : Pool A) (f : A -> Pool B) :
  respects R m -> (forall a, respects R (f a)) -> respects R (m ≫= f).
Proof.
  intros Hm Hf this. specialize (Hm this).
  unfold mbind, Pool_bind, state_of, trace_of in *.
  destruct (m this) as [[[a|] s1] t1]; cbn in *; [|exact Hm].
  specialize (Hf a s1). unfold state_of, trace_of in Hf.
  destruct (f a s1) as [[o s2] t2]; cbn in *.
  eapply rel_trans; eauto.
Qed.

Lemma respects_try_catch (body handler : Pool unit) :
  respects R body -> respects R handler -> respects R (try_catch body handler).
Proof.
  intros Hb Hh this. specialize (Hb this).
  unfold try_catch, state_of, trace_of in *.
  destruct (body this) as [[[a|] s1] t1]; cbn in *; [exact Hb|].
  specialize (Hh s1). unfold state_of, trace_of in Hh.
  destruct (handler s1) as [[o s2] t2]; cbn in *.
  eapply rel_trans; eauto.
Qed.

Lemma respects_Assert_isNotNull {A} (x : option A) :
  respects R (Assert_isNotNull x).
Proof. destruct x; [apply respects_ret | apply respects_throw]. Qed.

Lemma respects_when b m : respects R m -> respects R (when b m).
Proof. destruct b; [trivial | intros _; apply respects_ret]. Qed.

Lemma respects_for_each {A} (xs : list A) (f : A -> Pool unit) :
  (forall x, respects R (f x)) -> respects R (for_each xs f).
Proof.
  intros Hf. induction xs as [|x xs IH]; cbn [for_each].
  - apply respects_ret.
  - apply respects_bind; [apply Hf | intros _; exact IH].
Qed.

Lemma respects_modify f :
  (forall this, R this (f this) []) -> respects R (modify f).
Proof. intros Hf this. apply Hf. Qed.

Lemma respects_call e :
  (forall this, R this this [(e, this)]) -> respects R (call e).
Proof. intros He this. apply He. Qed.

End Respects.

(** Splits a handler along its control flow; what is left are its writes
    ([modify]), its calls ([call]) and the sub-handlers [tac] knows. *)
Ltac respects_step tac :=
  first
    [ apply respects_ret; exact _
    | apply respects_read; exact _
    | apply respects_throw; exact _
    | apply respects_Assert_isNotNull; exact _
    | tac
    | apply respects_bind; [exact _ | | intros ?]
    | apply respects_try_catch; [exact _ | | ]
    | apply respects_when; [exact _ | ]
    | apply respects_for_each; [exact _ | intros ?]
    | match goal with
      | |- respects _ (if ?b then _ else _) => destruct b
      | |- respects _ (match ?x with _ => _ end) => destruct x
      end ].

Ltac respects_walk tac := repeat (respects_step tac).

Ltac run_pool :=
  unfold mbind, Pool_bind, mret, Pool_ret, read, call, modify, throw, when,
    Assert_isNotNull, state_of, trace_of, outcome_of in *;
  cbn.

Lemma published_app t1 t2 : published (t1 ++ t2) = published t1 ++ published t2.
Proof.
  induction t1 as [|[e s] t1 IH]; [reflexivity|].
  destruct e; cbn; now rewrite ?IH.
Qed.

Lemma events_app t1 t2 : events (t1 ++ t2) = events t1 ++ events t2.
Proof. apply map_app. Qed.

Lemma count_events_app P t1 t2 :
  count_events P (t1 ++ t2) = (count_events P t1 + count_events P t2)%nat.
Proof.
  unfold count_events. now rewrite events_app, List.filter_app, length_app.
Qed.

(** ** The request counter *)

#[local] Instance counts_epochs_composable : Composable counts_epochs.
Proof.
  split.
  - intros this. split; cbn; [lia | reflexivity].
  - intros s1 s2 s3 t1 t2 [H1 H1'] [H2 H2']. unfold counts_epochs.
    rewrite published_app, length_app, fmap_app, H1', H2', H1, H2.
    split; [lia|].
    rewrite Nat2Z.inj_add, seqZ_app by lia. reflexivity.
Qed.

Section Counter.
Context `{Chain}.

Lemma distributeNewBlock_counts l : respects counts_epochs (distributeNewBlock l).
Proof.
  intros this. unfold distributeNewBlock. run_pool.
  destruct (currentHeadTimestamp this), (currentHeadDifficulty this);
    unfold counts_epochs; cbn; (split; [lia | reflexivity]).
Qed.

Ltac counts_leaf :=
  first
    [ apply distributeNewBlock_counts
    | apply respects_modify; intros ?;
      try (match goal with |- context [match ?x with _ => _ end] => destruct x end);
      (split; cbn; [lia | reflexivity])
    | apply respects_call; intros ?; (split; cbn; [lia | reflexivity]) ].

Lemma handler_counts op : respects counts_epochs (handler op).
Proof.
  destruct op; cbn [handler];
    unfold start, stop, submitWork, startConnectingRpc_resume,
      startConnectingRpc, onDisconnectRpc, processNewBlocks_step,
      processNewBlocks_body, recalculateTarget, notifyStatus, getStatus,
      estimateHashRate, processNewBlocks, restartCalculateTargetInterval,
      addWorkSubmission, retarget_in_place;
    cbv zeta;
    respects_walk counts_leaf.
Qed.

Lemma run_respects (R : Rel) `{!Composable R} :
  (forall op, respects R (handler op)) ->
  forall ops this, R this (fst (run ops this)) (snd (run ops this)).
Proof.
  intros Hop ops. induction ops as [|op ops IH]; intros this; cbn [run].
  - apply rel_refl.
  - specialize (Hop op this). unfold state_of, trace_of in Hop.
    destruct (handler op this) as [[o s1] t1]; cbn in Hop.
    specialize (IH s1). destruct (run ops s1) as [s2 t2]; cbn in *.
    eapply rel_trans; eauto.
Qed.

Lemma run_counts ops this :
  counts_epochs this (fst (run ops this)) (snd (run ops this)).
Proof. apply run_respects; [exact _ | apply handler_counts]. Qed.

End Counter.

(** ** The submission pipeline, path by path *)

Section SubmitWorkPaths.
Context `{Chain}.

Lemma for_each_call {A} (xs : list A) (f : A -> Event) this :
  for_each xs (fun x => call (f x)) this
  = (Returned tt, this, map (fun x => (f x, this)) xs).
Proof.
  induction xs as [|x xs IH]; [reflexivity|].
  cbn [for_each]. unfold mbind, Pool_bind.
  replace (call (f x) this) with (Returned tt, this, [(f x, this)])
    by reflexivity.
  now rewrite IH.
Qed.

Lemma for_each_call_unfolded {A} (xs : list A) (f : A -> Event) this :
  for_each xs (fun x this' => (Returned tt, this', [(f x, this')])) this
  = (Returned tt, this, map (fun x => (f x, this)) xs).
Proof. apply for_each_call. Qed.

Lemma recorded_frame clientId randomness this :
  webhooks (recorded clientId randomness this) = webhooks this
  /\ target (recorded clientId randomness this) = target this
  /\ difficulty (recorded clientId randomness this) = difficulty this
  /\ nextMiningRequestId (recorded clientId randomness this)
     = nextMiningRequestId this
  /\ miningRequestBlocks (recorded clientId randomness this)
     = miningRequestBlocks this
  /\ heap (recorded clientId randomness this) = heap this.
Proof.
  unfold recorded, addWorkSubmission. run_pool.
  destruct (recentSubmissions this !! clientId); cbn; repeat split.
Qed.

(** A submission that names the current epoch, finds its template and is
    not a duplicate is recorded, then hashed and checked against the two
    targets; a header that does not encode gets the client punished. *)
Lemma submitWork_accepted client miningRequestId randomness replies this
    publicAddress graffiti l original :
  StratumServerClient.publicAddress client = Some publicAddress ->
  StratumServerClient.graffiti client = Some graffiti ->
  miningRequestId = nextMiningRequestId this - 1 ->
  LRU.get miningRequestId (miningRequestBlocks this) = Some l ->
  heap this !! l = Some original ->
  isDuplicateSubmission this (StratumServerClient.id client) randomness = false ->
  submitWork client miningRequestId randomness replies this
  = on_its_merits (StratumServerClient.id client) publicAddress graffiti
      randomness replies original
      (recorded (StratumServerClient.id client) randomness this).
Proof.
  intros Hpa Hg Hid Hget Hheap Hdup.
  unfold submitWork, on_its_merits, estimateHashRate, block_path, share_path,
    composed_template, composed_header, recorded, addWorkSubmission.
  run_pool. rewrite Hpa, Hg. cbn.
  rewrite <- Hid, Z.eqb_refl, Hget. cbn. rewrite Hheap, Hdup. cbn.
  destruct (mineableHeaderString _) as [headerBytes|]; [|reflexivity].
  destruct (recentSubmissions this !! StratumServerClient.id client); cbn.
  all: destruct (Buffer.compare (blake3 headerBytes) (Buffer.from_hex _) =? 1);
    cbn.
  all: try (destruct (added replies); cbn).
  all: try rewrite (for_each_call_unfolded (webhooks this)
         (fun w => Webhook w (poolSubmittedBlock
            (Buffer.toString_hex (blake3 headerBytes))
            (hashRate_of (shareRate replies) (difficulty this))
            (clients_size replies)))); cbn.
  all: destruct (Buffer.compare (blake3 headerBytes) (target this) =? 1); cbn;
    rewrite ?app_nil_r; reflexivity.
Qed.

End SubmitWorkPaths.

(** ** What handlers leave alone *)

#[local] Instance broadcast_after_reset_composable :
  Composable broadcast_after_reset.
Proof.
  split.
  - intros this. constructor.
  - intros s1 s2 s3 t1 t2 H1 H2. apply Forall_app. split; assumption.
Qed.

#[local] Instance within_epoch_composable : Composable within_epoch.
Proof.
  split.
  - intros this _. repeat split; auto.
  - intros s1 s2 s3 t1 t2 H1 H2 Hpub.
    rewrite published_app in Hpub. apply app_eq_nil in Hpub as [Hp1 Hp2].
    destruct (H1 Hp1) as (Hn1 & Hc1 & Hh1 & Hd1).
    destruct (H2 Hp2) as (Hn2 & Hc2 & Hh2 & Hd2).
    repeat split; [congruence | congruence | etrans; eauto | auto].
Qed.

#[local] Instance keeps_ids_handed_out_composable :
  Composable keeps_ids_handed_out.
Proof.
  split.
  - intros this Hk. exact Hk.
  - intros s1 s2 s3 t1 t2 H1 H2 Hk. auto.
Qed.

#[local] Instance keeps_constants_composable : Composable keeps_constants.
Proof.
  split.
  - intros this. repeat split.
  - intros s1 s2 s3 t1 t2 (Ha1 & Hb1 & Hc1 & Hd1) (Ha2 & Hb2 & Hc2 & Hd2).
    repeat split; congruence.
Qed.

Lemma isDuplicateSubmission_recorded clientId randomness this c r :
  isDuplicateSubmission this c r = true ->
  isDuplicateSubmission (recorded clientId randomness this) c r = true.
Proof.
  unfold recorded, addWorkSubmission, isDuplicateSubmission. run_pool.
  intros Hdup.
  destruct (decide (clientId = c)) as [->|Hne].
  - destruct (recentSubmissions this !! c) as [subs|] eqn:E; [|discriminate].
    cbn. rewrite lookup_insert_eq.
    apply bool_decide_eq_true in Hdup. apply bool_decide_eq_true.
    apply elem_of_app. now left.
  - destruct (recentSubmissions this !! clientId); cbn;
      rewrite lookup_insert_ne by assumption; exact Hdup.
Qed.

Lemma isDuplicateSubmission_recorded_self clientId randomness this :
  isDuplicateSubmission (recorded clientId randomness this) clientId randomness
  = true.
Proof.
  unfold recorded, addWorkSubmission, isDuplicateSubmission. run_pool.
  destruct (recentSubmissions this !! clientId) as [subs|]; cbn;
    rewrite lookup_insert_eq; apply bool_decide_eq_true.
  - apply elem_of_app. right. apply list_elem_of_singleton. reflexivity.
  - apply list_elem_of_singleton. reflexivity.
Qed.

Lemma LRU_get_set_eq {V} key (value : V) c :
  LRU.capacity c <> O -> LRU.get key (LRU.set key value c) = Some value.
Proof.
  intros Hcap. unfold LRU.get, LRU.set. cbn.
  destruct (LRU.capacity c); [contradiction|].
  cbn. now rewrite Z.eqb_refl.
Qed.

Lemma LRU_get_bounded key (c : LRU.t loc) lo hi :
  Forall (fun entry => lo <= fst entry < hi) (LRU.entries c) ->
  ~ (lo <= key < hi) -> LRU.get key c = None.
Proof.
  unfold LRU.get. intros Hall Hout.
  induction Hall as [|[k v] es Hk _ IH]; [reflexivity|].
  cbn in *. destruct (Z.eqb_spec k key); [lia | exact IH].
Qed.

Section Frames.
Context `{Chain}.

Lemma distributeNewBlock_broadcast l :
  respects broadcast_after_reset (distributeNewBlock l).
Proof.
  intros this. unfold distributeNewBlock. run_pool.
  destruct (currentHeadTimestamp this), (currentHeadDifficulty this);
    unfold broadcast_after_reset; cbn; repeat constructor.
Qed.

Lemma distributeNewBlock_within_epoch l :
  respects within_epoch (distributeNewBlock l).
Proof.
  intros this. unfold distributeNewBlock. run_pool.
  destruct (currentHeadTimestamp this), (currentHeadDifficulty this);
    unfold within_epoch; cbn; intros Hpub;
    first [discriminate | repeat split; auto].
Qed.

Lemma distributeNewBlock_ids l :
  respects keeps_ids_handed_out (distributeNewBlock l).
Proof.
  intros this. unfold distributeNewBlock. run_pool.
  destruct (currentHeadTimestamp this), (currentHeadDifficulty this);
    unfold keeps_ids_handed_out, ids_handed_out; cbn; auto.
  intros [Hnext Hk]. split; [lia|].
  apply Forall_take. constructor; [cbn; lia|].
  apply Forall_forall. intros entry Hin.
  apply list_elem_of_In, filter_In in Hin as [Hin _].
  rewrite Forall_forall in Hk. apply list_elem_of_In, Hk in Hin. lia.
Qed.

End Frames.

Ltac unfold_handlers :=
  unfold start, stop, submitWork, startConnectingRpc_resume,
    startConnectingRpc, onDisconnectRpc, processNewBlocks_step,
    processNewBlocks_body, notifyStatus, getStatus, estimateHashRate,
    processNewBlocks, restartCalculateTargetInterval;
  cbv zeta.

Section HandlerFrames.
Context `{Chain}.

Lemma handler_broadcast op : respects broadcast_after_reset (handler op).
Proof.
  destruct op; cbn [handler]; unfold_handlers;
    unfold recalculateTarget, retarget_in_place, addWorkSubmission;
    cbv zeta;
    respects_walk ltac:(first
      [ apply distributeNewBlock_broadcast
      | apply respects_modify; intros ?; constructor
      | apply respects_call; intros ?; repeat constructor ]).
Qed.

Lemma recalculateTarget_within_epoch newTime :
  respects within_epoch (recalculateTarget newTime).
Proof.
  intros this.
  unfold recalculateTarget, retarget_in_place, distributeNewBlock. run_pool.
  destruct (currentHeadTimestamp this) eqn:Ets; cbn;
    [|intros _; repeat split; auto].
  destruct (currentHeadDifficulty this) eqn:Ed; cbn;
    [|intros _; repeat split; auto].
  destruct (LRU.get _ _); cbn; [|intros _; repeat split; auto].
  destruct (heap this !! _) eqn:Eh; cbn; [|intros _; repeat split; auto].
  destruct (_ =? _); cbn; [intros _; repeat split; auto|].
  rewrite Eh. cbn. rewrite Ets, Ed. cbn. intros Hpub. discriminate.
Qed.

Lemma addWorkSubmission_within_epoch clientId randomness :
  respects within_epoch (addWorkSubmission clientId randomness).
Proof.
  intros this _.
  pose proof (recorded_frame clientId randomness this)
    as (_ & _ & _ & Hn & Hc & Hh).
  fold (recorded clientId randomness this).
  rewrite Hn, Hc, Hh. repeat split; auto.
  intros c r. apply isDuplicateSubmission_recorded.
Qed.

Lemma handler_within_epoch op : respects within_epoch (handler op).
Proof.
  destruct op; cbn [handler]; unfold_handlers;
    respects_walk ltac:(first
      [ apply distributeNewBlock_within_epoch
      | apply recalculateTarget_within_epoch
      | apply addWorkSubmission_within_epoch
      | apply respects_modify; intros ? _; cbn; repeat split; auto;
        apply prefix_app_r; reflexivity
      | apply respects_call; intros ? _; repeat split; auto ]).
Qed.

Lemma handler_ids op : respects keeps_ids_handed_out (handler op).
Proof.
  destruct op; cbn [handler]; unfold_handlers;
    unfold recalculateTarget, retarget_in_place, addWorkSubmission;
    cbv zeta;
    respects_walk ltac:(first
      [ apply distributeNewBlock_ids
      | apply respects_modify; intros ?;
        try (match goal with
             | |- context [match ?x with _ => _ end] => destruct x
             end);
        intros Hk; exact Hk
      | apply respects_call; intros ? Hk; exact Hk ]).
Qed.

Lemma handler_constants op : respects keeps_constants (handler op).
Proof.
  destruct op; cbn [handler]; unfold_handlers;
    unfold recalculateTarget, retarget_in_place, addWorkSubmission,
      distributeNewBlock;
    cbv zeta;
    respects_walk ltac:(first
      [ apply respects_modify; intros ?;
        try (match goal with
             | |- context [match ?x with _ => _ end] => destruct x
             end);
        repeat split
      | apply respects_call; intros ?; repeat split ]).
Qed.

(** The pool target, the difficulty and the notifiers are those of the
    constructor for good. *)
Lemma run_constants ops this :
  target (fst (run ops this)) = target this
  /\ difficulty (fst (run ops this)) = difficulty this
  /\ webhooks (fst (run ops this)) = webhooks this.
Proof.
  pose proof (run_respects keeps_constants handler_constants ops this)
    as (Ht & Hd & Hw & _).
  repeat split; assumption.
Qed.

End HandlerFrames.

(** ** Counting the calls of an accepted submission *)

Section Merits.
Context `{Chain}.

Lemma filter_webhook_calls (P : Event -> bool) (f : nat -> WebhookCall)
    (this : MiningPool) (ws : list nat) :
  (forall w, P (Webhook w (f w)) = false) ->
  List.filter P (events (map (fun w => (Webhook w (f w), this)) ws)) = [].
Proof.
  intros HP. induction ws as [|w ws IH]; [reflexivity|].
  cbn. rewrite HP. exact IH.
Qed.

Lemma block_path_blocks this replies blockTemplate hashedHeader :
  List.filter is_block_submission
    (events (block_path this replies blockTemplate hashedHeader))
  = [RpcSubmitBlock blockTemplate].
Proof.
  unfold block_path. rewrite events_app, List.filter_app. cbn.
  destruct (added replies); cbn; [|reflexivity].
  f_equal. apply (filter_webhook_calls is_block_submission). reflexivity.
Qed.

Lemma block_path_shares this replies blockTemplate hashedHeader :
  List.filter is_share_credit
    (events (block_path this replies blockTemplate hashedHeader)) = [].
Proof.
  unfold block_path. rewrite events_app, List.filter_app. cbn.
  destruct (added replies); cbn; [|reflexivity].
  apply (filter_webhook_calls is_share_credit). reflexivity.
Qed.

(** An accepted submission makes at most one upstream submission and
    credits at most one share. *)
Lemma on_its_merits_counts clientId publicAddress graffiti randomness
    replies original this :
  let r := on_its_merits clientId publicAddress graffiti randomness replies
             original this in
  (count_events is_block_submission (trace_of r) <= 1)%nat
  /\ (count_events is_share_credit (trace_of r) <= 1)%nat.
Proof.
  unfold on_its_merits, count_events.
  destruct (mineableHeaderString _) as [headerBytes|];
    cbn -[block_path share_path]; [|lia].
  rewrite events_app, !List.filter_app, !length_app.
  destruct (Buffer.compare _ (Buffer.from_hex _) =? 1);
    destruct (Buffer.compare _ (target this) =? 1);
    rewrite ?block_path_blocks, ?block_path_shares; cbn; lia.
Qed.

Lemma submitWork_duplicate_dropped client miningRequestId randomness
    replies this :
  isDuplicateSubmission this (StratumServerClient.id client) randomness = true ->
  dropped (submitWork client miningRequestId randomness replies this) this.
Proof.
  intros Hdup. unfold submitWork, dropped. run_pool.
  destruct (StratumServerClient.publicAddress client); cbn; [|auto].
  destruct (StratumServerClient.graffiti client); cbn; [|auto].
  destruct (miningRequestId =? nextMiningRequestId this - 1); cbn; [|auto].
  destruct (LRU.get miningRequestId (miningRequestBlocks this)); cbn; [|auto].
  destruct (heap this !! _); cbn; [|auto].
  rewrite Hdup. cbn. auto.
Qed.

Lemma submitWork_dropped_or_accepted client miningRequestId randomness
    replies this :
  dropped (submitWork client miningRequestId randomness replies this) this
  \/ (isDuplicateSubmission this (StratumServerClient.id client) randomness
      = false
      /\ exists publicAddress graffiti original,
           submitWork client miningRequestId randomness replies this
           = on_its_merits (StratumServerClient.id client) publicAddress
               graffiti randomness replies original
               (recorded (StratumServerClient.id client) randomness this)).
Proof.
  destruct (isDuplicateSubmission this (StratumServerClient.id client)
              randomness) eqn:Hdup.
  { left. now apply submitWork_duplicate_dropped. }
  destruct (StratumServerClient.publicAddress client) as [pa|] eqn:Hpa.
  2:{ left. unfold submitWork, dropped. run_pool. rewrite Hpa. cbn. auto. }
  destruct (StratumServerClient.graffiti client) as [g|] eqn:Hg.
  2:{ left. unfold submitWork, dropped. run_pool. rewrite Hpa, Hg. cbn. auto. }
  destruct (Z.eqb_spec miningRequestId (nextMiningRequestId this - 1))
    as [Hid|Hid].
  2:{ left. unfold submitWork, dropped. run_pool. rewrite Hpa, Hg. cbn.
      apply Z.eqb_neq in Hid. rewrite Hid. cbn. auto. }
  destruct (LRU.get miningRequestId (miningRequestBlocks this)) as [l|] eqn:Hl.
  2:{ left. unfold submitWork, dropped. run_pool. rewrite Hpa, Hg. cbn.
      rewrite <- Hid, Z.eqb_refl, Hl. cbn. auto. }
  destruct (heap this !! l) as [original|] eqn:Hh.
  2:{ left. unfold submitWork, dropped. run_pool. rewrite Hpa, Hg. cbn.
      rewrite <- Hid, Z.eqb_refl, Hl. cbn. rewrite Hh. cbn. auto. }
  right. split; [reflexivity|]. exists pa, g, original.
  eapply submitWork_accepted; eauto.
Qed.

End Merits.

Section Duplicates.
Context `{Chain}.

Lemma on_its_merits_state clientId publicAddress graffiti randomness replies
    original this :
  state_of (on_its_merits clientId publicAddress graffiti randomness replies
              original this) = this.
Proof.
  unfold on_its_merits. destruct (mineableHeaderString _); reflexivity.
Qed.

Lemma dropped_counts r this :
  dropped r this ->
  count_events is_block_submission (trace_of r) = 0%nat
  /\ count_events is_share_credit (trace_of r) = 0%nat
  /\ count_events is_punishment (trace_of r) = 0%nat.
Proof.
  intros (_ & Hb & Hs & Hp). unfold count_events.
  now rewrite Hb, Hs, Hp.
Qed.

(** Whatever becomes of a submission, its nonce is on record for its
    client afterwards if it got as far as the duplicate check. *)
Lemma submitWork_frame client miningRequestId randomness replies this :
  let this' :=
    state_of (submitWork client miningRequestId randomness replies this) in
  nextMiningRequestId this' = nextMiningRequestId this
  /\ miningRequestBlocks this' = miningRequestBlocks this
  /\ heap this' = heap this.
Proof.
  destruct (submitWork_dropped_or_accepted client miningRequestId randomness
              replies this) as [(Hs & _) | (_ & pa & g & o & Heq)]; cbn zeta.
  - rewrite Hs. repeat split.
  - rewrite Heq, on_its_merits_state.
    pose proof (recorded_frame (StratumServerClient.id client) randomness this)
      as (_ & _ & _ & Hn & Hc & Hh).
    repeat split; assumption.
Qed.

Lemma submitWork_duplicate client miningRequestId randomness replies this
    publicAddress graffiti l original :
  StratumServerClient.publicAddress client = Some publicAddress ->
  StratumServerClient.graffiti client = Some graffiti ->
  miningRequestId = nextMiningRequestId this - 1 ->
  LRU.get miningRequestId (miningRequestBlocks this) = Some l ->
  heap this !! l = Some original ->
  isDuplicateSubmission this (StratumServerClient.id client) randomness = true ->
  submitWork client miningRequestId randomness replies this
  = (Returned tt, this,
     [(Log warn (MsgDuplicateRequest (StratumServerClient.id client)
                   miningRequestId randomness), this)]).
Proof.
  intros Hpa Hg Hid Hget Hheap Hdup.
  unfold submitWork. run_pool. rewrite Hpa, Hg. cbn.
  rewrite <- Hid, Z.eqb_refl, Hget. cbn. rewrite Hheap, Hdup. reflexivity.
Qed.

(** Once a submission went past the staleness and cache checks, its nonce
    is on record for its client. *)
Lemma submitWork_records client miningRequestId randomness replies this
    publicAddress graffiti l original :
  StratumServerClient.publicAddress client = Some publicAddress ->
  StratumServerClient.graffiti client = Some graffiti ->
  miningRequestId = nextMiningRequestId this - 1 ->
  LRU.get miningRequestId (miningRequestBlocks this) = Some l ->
  heap this !! l = Some original ->
  isDuplicateSubmission
    (state_of (submitWork client miningRequestId randomness replies this))
    (StratumServerClient.id client) randomness = true.
Proof.
  intros Hpa Hg Hid Hget Hheap.
  destruct (isDuplicateSubmission this (StratumServerClient.id client)
              randomness) eqn:Hdup.
  - now rewrite (submitWork_duplicate _ _ _ _ _ _ _ _ _ Hpa Hg Hid Hget Hheap Hdup).
  - rewrite (submitWork_accepted _ _ _ _ _ _ _ _ _ Hpa Hg Hid Hget Hheap Hdup).
    rewrite on_its_merits_state. apply isDuplicateSubmission_recorded_self.
Qed.

Lemma distributeNewBlock_returned newBlock this :
  outcome_of (distributeNewBlock newBlock this) = Returned tt ->
  state_of (distributeNewBlock newBlock this)
  = set_recentSubmissions ∅
      (set_miningRequestBlocks
         (LRU.set (nextMiningRequestId this) newBlock (miningRequestBlocks this))
         (set_nextMiningRequestId (nextMiningRequestId this + 1) this)).
Proof.
  unfold distributeNewBlock. run_pool.
  destruct (currentHeadTimestamp this), (currentHeadDifficulty this); cbn;
    first [reflexivity | discriminate].
Qed.

End Duplicates.

(** ** Targets keep their width *)

#[local] Instance keeps_targets_32_bytes_composable :
  Composable keeps_targets_32_bytes.
Proof.
  split.
  - intros this Hk. exact Hk.
  - intros s1 s2 s3 t1 t2 H1 H2 Hk. auto.
Qed.

Section TargetWidth.
Context `{Chain}.

Lemma retarget_in_place_targets l newTarget newTime :
  respects keeps_targets_32_bytes (retarget_in_place l newTarget newTime).
Proof.
  intros this [Ht Hh].
  unfold retarget_in_place, modify, state_of. cbn [fst snd].
  destruct (heap this !! l) as [latestBlock|]; [|split; assumption].
  split; [exact Ht|]. cbn [heap set_heap]. apply Forall_insert; [exact Hh|].
  unfold SerializedBlockTemplate.set_header, Header.set_timestamp,
    Header.set_target.
  cbn [SerializedBlockTemplate.header Header.target].
  rewrite from_hex_toString_hex. apply be_bytes_length.
Qed.

Lemma handler_targets op :
  wellformed_payload op -> respects keeps_targets_32_bytes (handler op).
Proof.
  intros Hwf.
  destruct op; cbn [handler]; unfold_handlers;
    unfold recalculateTarget, addWorkSubmission, distributeNewBlock;
    cbv zeta;
    respects_walk ltac:(first
      [ apply retarget_in_place_targets
      | apply respects_modify; intros ?; cbv beta;
        try (match goal with
             | |- context [match ?x with _ => _ end] => destruct x
             end);
        intros [Ht Hh];
        (split;
         [ exact Ht
         | cbn;
           first [ exact Hh
                 | apply Forall_app;
                   (split; [exact Hh | constructor; [exact Hwf | constructor]]) ] ])
      | apply respects_call; intros ? Hk; exact Hk ]).
Qed.

(** Fed with well-formed templates, a coordinator never holds a target
    that is not 32 bytes wide: the width assumed of the two targets of a
    submission holds in every state it can be in. *)
Lemma reachable_targets_are_32_bytes webhooks poolName poolDifficulty ops :
  Forall wellformed_payload ops ->
  targets_are_32_bytes
    (fst (run ops (constructor webhooks poolName poolDifficulty))).
Proof.
  intros Hops.
  assert (targets_are_32_bytes (constructor webhooks poolName poolDifficulty))
    as Hinit by (split; [apply be_bytes_length | constructor]).
  revert Hinit. generalize (constructor webhooks poolName poolDifficulty).
  induction Hops as [|op ops Hop _ IH]; intros this Hthis; [exact Hthis|].
  cbn [run]. pose proof (handler_targets op Hop this Hthis) as Hstep.
  unfold state_of in Hstep.
  destruct (handler op this) as [[o s1] t1]. cbn in Hstep.
  specialize (IH s1 Hstep). destruct (run ops s1) as [s2 t2]. exact IH.
Qed.

End TargetWidth.

(** ** The connection loop and the hash rate *)

Section ConnectionLoop.
Context `{Chain}.

Lemma count_poolDisconnected_calls this (ws : list nat) :
  length (List.filter is_poolDisconnected
            (events (map (fun w => (Webhook w poolDisconnected, this)) ws)))
  = length ws.
Proof.
  unfold events. induction ws as [|w ws IH]; [reflexivity|].
  cbn. now rewrite IH.
Qed.

(** One failed attempt of a started coordinator: the warning if none was
    given yet, then the retry timer. *)
Lemma startConnectingRpc_resume_failed this :
  started this = true ->
  startConnectingRpc_resume false this
  = (Returned tt,
     set_connectTimeout (Some (TimeoutToken 5000))
       (if connectWarned this then this else set_connectWarned true this),
     (if connectWarned this then [] else [(Log warn MsgFailedToConnect, this)])
     ++ [(SetTimeout StartConnectingRpc 5000,
          if connectWarned this then this else set_connectWarned true this)]).
Proof.
  intros Hs. unfold startConnectingRpc_resume. run_pool. rewrite Hs. cbn.
  destruct (connectWarned this); reflexivity.
Qed.

(** A close signal: the stratum server is told to wait, every notifier
    hears [poolDisconnected], and a connection attempt is started. *)
Lemma onDisconnectRpc_eq this :
  onDisconnectRpc this
  = (Returned tt, this,
     [(StratumWaitForWork, this); (Log info MsgDisconnected, this)]
     ++ map (fun w => (Webhook w poolDisconnected, this)) (webhooks this)
     ++ [(RpcTryConnect, this)]).
Proof.
  unfold onDisconnectRpc, startConnectingRpc. run_pool.
  now rewrite for_each_call_unfolded.
Qed.

Lemma onDisconnectRpc_counts this :
  count_events is_poolDisconnected (trace_of (onDisconnectRpc this))
  = length (webhooks this)
  /\ count_events is_warning (trace_of (onDisconnectRpc this)) = O
  /\ count_events is_retry (trace_of (onDisconnectRpc this)) = O.
Proof.
  rewrite onDisconnectRpc_eq. unfold trace_of, count_events. cbn [snd].
  rewrite !events_app, !List.filter_app, !length_app.
  rewrite count_poolDisconnected_calls.
  rewrite (filter_webhook_calls is_warning (fun _ => poolDisconnected))
    by reflexivity.
  rewrite (filter_webhook_calls is_retry (fun _ => poolDisconnected))
    by reflexivity.
  cbn. repeat split; lia.
Qed.

End ConnectionLoop.


(** * Properties of the coordinator *)

Section Properties.
Context `{Chain}.


(** C3. A submission whose [miningRequestId] is not
    [nextMiningRequestId - 1] leaves the coordinator as it was (deduper,
    work cache and counter included) and makes no call but the debug log
    of the stale request: no share credit, no upstream submission, no
    punishment. For a client with an address and a graffiti, the call
    returns having made exactly that debug log. *)
Theorem submitWork_stale_dropped client miningRequestId randomness replies this :
  miningRequestId <> nextMiningRequestId this - 1 ->
  let r := submitWork client miningRequestId randomness replies this in
  state_of r = this
  /\ Forall (fun e => e = Log debug (MsgStaleRequest (StratumServerClient.id client)
                                       miningRequestId))
       (events (trace_of r))
  /\ count_events is_share_credit (trace_of r) = 0%nat
  /\ count_events is_block_submission (trace_of r) = 0%nat
  /\ count_events is_punishment (trace_of r) = 0%nat
  /\ (is_Some (StratumServerClient.publicAddress client) ->
      is_Some (StratumServerClient.graffiti client) ->
      r = (Returned tt, this,
           [(Log debug (MsgStaleRequest (StratumServerClient.id client)
                          miningRequestId), this)])).
Proof.
  intros Hid. apply Z.eqb_neq in Hid.
  unfold submitWork. run_pool.
  destruct (StratumServerClient.publicAddress client) as [pa|]; cbn.
  2:{ repeat split; try constructor. intros [? ?]. discriminate. }
  destruct (StratumServerClient.graffiti client) as [g|]; cbn.
  2:{ repeat split; try constructor. intros _ [? ?]. discriminate. }
  rewrite Hid. cbn. repeat split. repeat constructor.
Qed.

(** C10. Before any epoch has been published ([nextMiningRequestId] is 0,
    in any coordinator reached from construction), a submission for
    request [-1] passes the staleness check, finds no template, and is
    dropped with the warning of an invalid request: the coordinator is
    unchanged, and no share is credited, no block submitted, nobody
    punished. *)
Theorem submitWork_before_first_epoch
    webhooks poolName poolDifficulty ops client randomness replies
    publicAddress graffiti :
  let this := fst (run ops (constructor webhooks poolName poolDifficulty)) in
  nextMiningRequestId this = 0 ->
  StratumServerClient.publicAddress client = Some publicAddress ->
  StratumServerClient.graffiti client = Some graffiti ->
  submitWork client (-1) randomness replies this
  = (Returned tt, this,
     [(Log warn (MsgInvalidRequest (StratumServerClient.id client) (-1)), this)]).
Proof.
  intros this Hnext Hpa Hg.
  assert (ids_handed_out this) as [_ Hids].
  { apply (run_respects keeps_ids_handed_out handler_ids).
    split; [cbn; lia | constructor]. }
  assert (LRU.get (-1) (miningRequestBlocks this) = None) as Hnone.
  { eapply LRU_get_bounded; [exact Hids | lia]. }
  unfold submitWork. run_pool. rewrite Hpa, Hg. cbn.
  rewrite Hnext. cbn. rewrite Hnone. reflexivity.
Qed.

(** C6. When the retarget computation gives the target that the cached
    current template already carries, [recalculateTarget] returns having
    only logged: the coordinator (counter, cached template, work cache,
    deduper) is unchanged, and nothing is published or broadcast. *)
Theorem recalculateTarget_same_target
    this newTime headTimestamp headDifficulty l latestBlock :
  currentHeadTimestamp this = Some headTimestamp ->
  currentHeadDifficulty this = Some headDifficulty ->
  LRU.get (nextMiningRequestId this - 1) (miningRequestBlocks this) = Some l ->
  heap this !! l = Some latestBlock ->
  let newTarget :=
    Target_fromDifficulty
      (Target_calculateDifficulty newTime headTimestamp headDifficulty) in
  newTarget
  = BigIntUtils.fromBytes
      (Buffer.from_hex (Header.target (SerializedBlockTemplate.header latestBlock))) ->
  let r := recalculateTarget newTime this in
  r = (Returned tt, this,
       [(Log debug MsgRecalculatingTarget, this);
        (Log debug (MsgSameTarget newTarget), this)])
  /\ published (trace_of r) = []
  /\ nextMiningRequestId (state_of r) = nextMiningRequestId this.
Proof.
  intros Hts Hd Hl Hh newTarget Hsame r.
  assert (r = (Returned tt, this,
               [(Log debug MsgRecalculatingTarget, this);
                (Log debug (MsgSameTarget newTarget), this)])) as Hr.
  { subst r. unfold recalculateTarget. run_pool.
    rewrite Hts, Hd. cbn. rewrite Hl. cbn. rewrite Hh. cbn.
    fold newTarget. rewrite <- Hsame, Z.eqb_refl. reflexivity. }
  rewrite Hr. repeat split.
Qed.

(** C5. When the retarget computation gives a target other than the one
    the cached current template carries, [recalculateTarget] changes that
    template where it stands (no new object): its header target becomes
    the new target as 32 bytes in hex and its timestamp becomes now. It
    then publishes the same object as a new epoch: the counter moves up by
    one, the new id maps to the object in the work cache, the deduper is
    empty, and the one broadcast announces the old counter value and the
    object, to a stratum server that finds the coordinator in its final
    state. *)
Theorem recalculateTarget_new_target
    this newTime headTimestamp headDifficulty l latestBlock :
  currentHeadTimestamp this = Some headTimestamp ->
  currentHeadDifficulty this = Some headDifficulty ->
  LRU.get (nextMiningRequestId this - 1) (miningRequestBlocks this) = Some l ->
  heap this !! l = Some latestBlock ->
  LRU.capacity (miningRequestBlocks this) <> O ->
  let newTarget :=
    Target_fromDifficulty
      (Target_calculateDifficulty newTime headTimestamp headDifficulty) in
  0 <= newTarget < 2 ^ 256 ->
  newTarget
  <> BigIntUtils.fromBytes
       (Buffer.from_hex (Header.target (SerializedBlockTemplate.header latestBlock))) ->
  let r := recalculateTarget newTime this in
  let this' := state_of r in
  let hex := Buffer.toString_hex (BigIntUtils.toBytesBE newTarget 32) in
  let retargeted :=
    SerializedBlockTemplate.set_header
      (Header.set_timestamp newTime
         (Header.set_target hex (SerializedBlockTemplate.header latestBlock)))
      latestBlock in
  outcome_of r = Returned tt
  /\ heap this' = <[l := retargeted]> (heap this)
  /\ heap this' !! l = Some retargeted
  /\ length (Buffer.from_hex hex) = 32%nat
  /\ BigIntUtils.fromBytes (Buffer.from_hex hex) = newTarget
  /\ nextMiningRequestId this' = nextMiningRequestId this + 1
  /\ miningRequestBlocks this'
     = LRU.set (nextMiningRequestId this) l (miningRequestBlocks this)
  /\ LRU.get (nextMiningRequestId this' - 1) (miningRequestBlocks this') = Some l
  /\ recentSubmissions this' = ∅
  /\ trace_of r
     = [(Log debug MsgRecalculatingTarget, this);
        (StratumNewWork (nextMiningRequestId this) l, this');
        (Log debug (MsgTargetRecalculated
           (Header.previousBlockHash (SerializedBlockTemplate.header latestBlock))),
         this')].
Proof.
  intros Hts Hd Hl Hh Hcap newTarget Hrange Hnew r this' hex retargeted.
  apply Z.eqb_neq in Hnew.
  assert (r = (Returned tt,
               set_recentSubmissions ∅
                 (set_miningRequestBlocks
                    (LRU.set (nextMiningRequestId this) l (miningRequestBlocks this))
                    (set_nextMiningRequestId (nextMiningRequestId this + 1)
                       (set_heap (<[l := retargeted]> (heap this)) this))),
               [(Log debug MsgRecalculatingTarget, this);
                (StratumNewWork (nextMiningRequestId this) l,
                 set_recentSubmissions ∅
                   (set_miningRequestBlocks
                      (LRU.set (nextMiningRequestId this) l (miningRequestBlocks this))
                      (set_nextMiningRequestId (nextMiningRequestId this + 1)
                         (set_heap (<[l := retargeted]> (heap this)) this))));
                (Log debug (MsgTargetRecalculated
                   (Header.previousBlockHash
                      (SerializedBlockTemplate.header latestBlock))),
                 set_recentSubmissions ∅
                   (set_miningRequestBlocks
                      (LRU.set (nextMiningRequestId this) l (miningRequestBlocks this))
                      (set_nextMiningRequestId (nextMiningRequestId this + 1)
                         (set_heap (<[l := retargeted]> (heap this)) this))))]))
    as Hr.
  { subst r. unfold recalculateTarget, retarget_in_place, distributeNewBlock.
    run_pool. rewrite Hts, Hd. cbn. rewrite Hl. cbn. rewrite Hh. cbn.
    fold newTarget. rewrite Hnew. cbn. rewrite Hh. cbn. rewrite Hts, Hd. cbn.
    reflexivity. }
  assert (Buffer.from_hex hex = BigIntUtils.toBytesBE newTarget 32) as Hhex
    by apply from_hex_toString_hex.
  subst this'. rewrite Hr, Hhex. unfold state_of, outcome_of, trace_of.
  cbn [fst snd heap nextMiningRequestId miningRequestBlocks recentSubmissions
       set_recentSubmissions set_miningRequestBlocks set_nextMiningRequestId
       set_heap].
  repeat split.
  - apply list_lookup_insert_eq. eapply lookup_lt_Some; eauto.
  - apply be_value_be_bytes_small. exact Hrange.
  - replace (nextMiningRequestId this + 1 - 1) with (nextMiningRequestId this)
      by lia.
    now apply LRU_get_set_eq.
Qed.

(** C2. A call of [distributeNewBlock] that returns leaves the deduper
    empty, and its one broadcast, made last, reaches a stratum server that
    finds the coordinator in that final state: the deduper was cleared
    before the broadcast. The call returns whenever the head timestamp and
    difficulty are set, as they are at both call sites. Along any sequence
    of handlers, every broadcast of new work finds the deduper empty and
    the counter one past the id announced. *)
Theorem distributeNewBlock_clears_before_broadcast :
  (forall this newBlock,
     let r := distributeNewBlock newBlock this in
     (outcome_of r = Returned tt ->
      recentSubmissions (state_of r) = ∅
      /\ trace_of r
         = [(StratumNewWork (nextMiningRequestId this) newBlock, state_of r)])
     /\ (is_Some (currentHeadTimestamp this) ->
         is_Some (currentHeadDifficulty this) ->
         outcome_of r = Returned tt))
  /\ (forall ops this, forall entry, entry ∈ snd (run ops this) ->
       forall miningRequestId newBlock,
         fst entry = StratumNewWork miningRequestId newBlock ->
         recentSubmissions (snd entry) = ∅
         /\ nextMiningRequestId (snd entry) = miningRequestId + 1).
Proof.
  split.
  - intros this newBlock. unfold distributeNewBlock. run_pool.
    destruct (currentHeadTimestamp this), (currentHeadDifficulty this); cbn;
      (split; [first [discriminate | intros _; split; reflexivity]
              | first [reflexivity | intros [? ?] [? ?]; discriminate]]).
  - intros ops this entry Hin miningRequestId newBlock He.
    pose proof (run_respects broadcast_after_reset handler_broadcast ops this)
      as Hall.
    unfold broadcast_after_reset in Hall. rewrite Forall_forall in Hall.
    specialize (Hall entry Hin). rewrite He in Hall. exact Hall.
Qed.

(** C7. [nextMiningRequestId] is 0 at construction. Along any sequence of
    handlers it grows by exactly one per epoch published, the epochs
    carrying the consecutive ids from its old value on: it never goes
    down and is never set back to 0. From construction on it is the number
    of epochs published so far. [stop()] and [start()] leave it as it
    is. *)
Theorem nextMiningRequestId_monotone :
  (forall webhooks poolName poolDifficulty,
     nextMiningRequestId (constructor webhooks poolName poolDifficulty) = 0)
  /\ (forall webhooks poolName poolDifficulty ops,
       let r := run ops (constructor webhooks poolName poolDifficulty) in
       nextMiningRequestId (fst r) = Z.of_nat (length (published (snd r))))
  /\ (forall ops this,
       let r := run ops this in
       nextMiningRequestId (fst r)
         = nextMiningRequestId this + Z.of_nat (length (published (snd r)))
       /\ (published (snd r)).*1
          = seqZ (nextMiningRequestId this)
              (Z.of_nat (length (published (snd r))))
       /\ nextMiningRequestId this <= nextMiningRequestId (fst r))
  /\ (forall this statusInterval,
       nextMiningRequestId (state_of (stop this)) = nextMiningRequestId this
       /\ nextMiningRequestId (state_of (start statusInterval this))
          = nextMiningRequestId this
       /\ nextMiningRequestId (fst (run [OpStop; OpStart statusInterval] this))
          = nextMiningRequestId this).
Proof.
  split; [reflexivity|]. split; [|split].
  - intros webhooks poolName poolDifficulty ops r.
    destruct (run_counts ops (constructor webhooks poolName poolDifficulty))
      as [Hn _].
    fold r in Hn. rewrite Hn. cbn. lia.
  - intros ops this r. destruct (run_counts ops this) as [Hn Hids].
    fold r in Hn, Hids. repeat split; [exact Hn | exact Hids | lia].
  - intros this statusInterval.
    assert (forall ops s,
              published (snd (run ops s)) = [] ->
              nextMiningRequestId (fst (run ops s)) = nextMiningRequestId s)
      as Hquiet.
    { intros ops s Hp. destruct (run_counts ops s) as [Hn _].
      rewrite Hp in Hn. cbn in Hn. lia. }
    assert (forall s, published (trace_of (stop s)) = []) as Hstop.
    { intros s. unfold stop. run_pool.
      destruct (started s); cbn; [|reflexivity].
      destruct (stopResolve s), (connectTimeout s),
        (recalculateTargetInterval s), (notifyStatusInterval s); reflexivity. }
    assert (forall s, published (trace_of (start statusInterval s)) = [])
      as Hstart.
    { intros s. unfold start, startConnectingRpc. run_pool.
      destruct (started s); cbn; [reflexivity|].
      destruct (0 <? statusInterval); reflexivity. }
    split; [|split].
    + pose proof (Hquiet [OpStop] this) as Hq. cbn in Hq.
      unfold state_of. specialize (Hstop this). unfold trace_of in Hstop.
      destruct (stop this) as [[o s] t]. cbn in *.
      apply Hq. now rewrite app_nil_r.
    + pose proof (Hquiet [OpStart statusInterval] this) as Hq. cbn in Hq.
      unfold state_of. specialize (Hstart this). unfold trace_of in Hstart.
      destruct (start statusInterval this) as [[o s] t]. cbn in *.
      apply Hq. now rewrite app_nil_r.
    + apply Hquiet. cbn.
      specialize (Hstop this). unfold trace_of in Hstop.
      destruct (stop this) as [[o s] t]. cbn in *.
      specialize (Hstart s). unfold trace_of in Hstart.
      destruct (start statusInterval s) as [[o' s'] t']. cbn in *.
      now rewrite published_app, published_app, Hstop, Hstart.
Qed.

(** C4. Take a submission of nonce [randomness] by a client, then anything
    that publishes no epoch, then a submission of the same nonce by the
    same client. Together the two credit at most one share and make at
    most one upstream submission. If the first went past the staleness and
    cache checks and the second names the same epoch, the second returns
    having only logged the duplicate warning: the coordinator, its deduper
    included, is as before, and nobody is punished. Once a new epoch is
    published the nonce is no duplicate: the same submission for the new
    epoch is recorded and taken on its merits. *)
Theorem duplicate_within_epoch_only
    this client1 miningRequestId1 randomness replies1 ops
    client2 miningRequestId2 replies2 :
  StratumServerClient.id client2 = StratumServerClient.id client1 ->
  let r1 := submitWork client1 miningRequestId1 randomness replies1 this in
  let r2 := run ops (state_of r1) in
  published (snd r2) = [] ->
  let r3 := submitWork client2 miningRequestId2 randomness replies2 (fst r2) in
  ((count_events is_share_credit (trace_of r1)
    + count_events is_share_credit (trace_of r3) <= 1)%nat
   /\ (count_events is_block_submission (trace_of r1)
       + count_events is_block_submission (trace_of r3) <= 1)%nat)
  /\ (forall publicAddress1 graffiti1 l original publicAddress2 graffiti2,
       StratumServerClient.publicAddress client1 = Some publicAddress1 ->
       StratumServerClient.graffiti client1 = Some graffiti1 ->
       miningRequestId1 = nextMiningRequestId this - 1 ->
       LRU.get miningRequestId1 (miningRequestBlocks this) = Some l ->
       heap this !! l = Some original ->
       StratumServerClient.publicAddress client2 = Some publicAddress2 ->
       StratumServerClient.graffiti client2 = Some graffiti2 ->
       miningRequestId2 = miningRequestId1 ->
       r3 = (Returned tt, fst r2,
             [(Log warn (MsgDuplicateRequest (StratumServerClient.id client2)
                           miningRequestId2 randomness), fst r2)]))
  /\ (forall newBlock original publicAddress2 graffiti2 replies3,
       let r4 := distributeNewBlock newBlock (fst r2) in
       outcome_of r4 = Returned tt ->
       LRU.capacity (miningRequestBlocks (fst r2)) <> O ->
       heap (fst r2) !! newBlock = Some original ->
       StratumServerClient.publicAddress client2 = Some publicAddress2 ->
       StratumServerClient.graffiti client2 = Some graffiti2 ->
       isDuplicateSubmission (state_of r4) (StratumServerClient.id client2)
         randomness = false
       /\ submitWork client2 (nextMiningRequestId (state_of r4) - 1) randomness
            replies3 (state_of r4)
          = on_its_merits (StratumServerClient.id client2) publicAddress2
              graffiti2 randomness replies3 original
              (recorded (StratumServerClient.id client2) randomness
                 (state_of r4))).
Proof.
  intros Hsame r1 r2 Hquiet r3.
  pose proof (run_respects within_epoch handler_within_epoch ops (state_of r1)
                Hquiet) as (Hn2 & Hc2 & Hh2 & Hd2).
  fold r2 in Hn2, Hc2, Hh2, Hd2.
  pose proof (submitWork_frame client1 miningRequestId1 randomness replies1 this)
    as (Hn1 & Hc1 & Hh1).
  fold r1 in Hn1, Hc1, Hh1.
  split; [|split].
  - pose proof (on_its_merits_counts) as Hmerit.
    assert ((count_events is_block_submission (trace_of r3) <= 1)%nat
            /\ (count_events is_share_credit (trace_of r3) <= 1)%nat) as [Hb3 Hs3].
    { destruct (submitWork_dropped_or_accepted client2 miningRequestId2
                  randomness replies2 (fst r2))
        as [Hdrop | (_ & pa & g & o & Heq)].
      - apply dropped_counts in Hdrop as (Hb & Hs & _). fold r3 in Hb, Hs. lia.
      - subst r3. rewrite Heq. apply Hmerit. }
    destruct (submitWork_dropped_or_accepted client1 miningRequestId1
                randomness replies1 this)
      as [Hdrop | (_ & pa & g & o & Heq)].
    + apply dropped_counts in Hdrop as (Hb & Hs & _). fold r1 in Hb, Hs. lia.
    + assert (isDuplicateSubmission (fst r2) (StratumServerClient.id client2)
                randomness = true) as Hdup.
      { rewrite Hsame. apply Hd2. subst r1. rewrite Heq, on_its_merits_state.
        apply isDuplicateSubmission_recorded_self. }
      apply (submitWork_duplicate_dropped client2 miningRequestId2 randomness
               replies2) in Hdup.
      apply dropped_counts in Hdup as (Hb & Hs & _). fold r3 in Hb, Hs.
      assert ((count_events is_block_submission (trace_of r1) <= 1)%nat
              /\ (count_events is_share_credit (trace_of r1) <= 1)%nat) as [Hb1 Hs1]
        by (subst r1; rewrite Heq; apply Hmerit).
      lia.
  - intros pa1 g1 l original pa2 g2 Hpa1 Hg1 Hid1 Hget Hheap Hpa2 Hg2 Hid2.
    subst r3. apply (submitWork_duplicate _ _ _ _ _ pa2 g2 l original);
      try assumption.
    + rewrite Hid2, Hn2, Hn1. exact Hid1.
    + rewrite Hid2, Hc2, Hc1. exact Hget.
    + eapply prefix_lookup_Some; [|exact Hh2]. rewrite Hh1. exact Hheap.
    + rewrite Hsame. apply Hd2.
      apply (submitWork_records _ _ _ _ _ pa1 g1 l original); assumption.
  - intros newBlock original pa2 g2 replies3 r4 Hret Hcap Hheap Hpa2 Hg2.
    subst r4. rewrite (distributeNewBlock_returned _ _ Hret).
    assert (isDuplicateSubmission
              (set_recentSubmissions ∅
                 (set_miningRequestBlocks
                    (LRU.set (nextMiningRequestId (fst r2)) newBlock
                       (miningRequestBlocks (fst r2)))
                    (set_nextMiningRequestId (nextMiningRequestId (fst r2) + 1)
                       (fst r2))))
              (StratumServerClient.id client2) randomness = false) as Hfresh
      by (unfold isDuplicateSubmission; cbn; now rewrite lookup_empty).
    split; [exact Hfresh|].
    apply (submitWork_accepted _ _ _ _ _ pa2 g2 newBlock original);
      try assumption; cbn;
      first
        [ reflexivity
        | exact Hheap
        | replace (nextMiningRequestId (fst r2) + 1 - 1)
            with (nextMiningRequestId (fst r2)) by lia;
          now apply LRU_get_set_eq ].
Qed.

(** C8, as the code has it. While the coordinator is started, every
    failed connection attempt arms a retry in 5000 ms, and a run of
    failed attempts logs the warning once, on the first of them, unless
    it was already given since the last successful connection (which
    clears the flag). Failed attempts send no [poolDisconnected]: that
    notification goes out once per notifier on each close signal of the
    upstream ([onDisconnectRpc]), which itself logs no warning and arms no
    retry. So an outage that opens with a close signal has one
    [poolDisconnected] per notifier, and one that opens otherwise has
    none. *)
Theorem outage_retries_and_warns_once this n :
  started this = true ->
  let r := run (failed_attempts n) this in
  let r' := run (OpRpcClosed :: failed_attempts n) this in
  (count_events is_retry (snd r) = n
   /\ count_events is_warning (snd r)
      = (if connectWarned this then O else Nat.min 1 n)
   /\ count_events is_poolDisconnected (snd r) = O
   /\ started (fst r) = true
   /\ connectWarned (fst r) = (connectWarned this || negb (n =? 0)%nat))
  /\ (count_events is_poolDisconnected (trace_of (onDisconnectRpc this))
      = length (webhooks this)
      /\ count_events is_warning (trace_of (onDisconnectRpc this)) = O
      /\ count_events is_retry (trace_of (onDisconnectRpc this)) = O)
  /\ (count_events is_retry (snd r') = n
      /\ count_events is_warning (snd r')
         = (if connectWarned this then O else Nat.min 1 n)
      /\ count_events is_poolDisconnected (snd r') = length (webhooks this))
  /\ connectWarned (state_of (startConnectingRpc_resume true this)) = false.
Proof.
  intros Hstarted r r'.
  assert (count_events is_retry (snd r) = n
          /\ count_events is_warning (snd r)
             = (if connectWarned this then O else Nat.min 1 n)
          /\ count_events is_poolDisconnected (snd r) = O
          /\ started (fst r) = true
          /\ connectWarned (fst r) = (connectWarned this || negb (n =? 0)%nat))
    as Hloop.
  { subst r. clear r'. revert this Hstarted.
    induction n as [|n IH]; intros this Hstarted.
    - cbn. destruct (connectWarned this); repeat split; assumption.
    - cbn [failed_attempts run handler].
      rewrite (startConnectingRpc_resume_failed this Hstarted).
      set (s1 := set_connectTimeout (Some (TimeoutToken 5000))
                   (if connectWarned this then this
                    else set_connectWarned true this)).
      assert (started s1 = true) as Hs1
        by (subst s1; destruct (connectWarned this); exact Hstarted).
      assert (connectWarned s1 = true) as Hw1
        by (subst s1; destruct (connectWarned this) eqn:E; cbn; auto).
      unfold startConnectingRpc, call.
      specialize (IH s1 Hs1). rewrite Hw1 in IH.
      destruct (run (failed_attempts n) s1) as [s2 t2]. cbn [fst snd] in *.
      destruct IH as (Hr & Hwn & Hd & Hst & Hcw).
      rewrite !count_events_app, Hr, Hwn, Hd.
      destruct (connectWarned this); cbn; repeat split; auto. }
  pose proof (onDisconnectRpc_counts this) as Hclose.
  split; [exact Hloop|]. split; [exact Hclose|]. split.
  - destruct Hloop as (Hr & Hwn & Hd & _). destruct Hclose as (Hcd & Hcw & Hcr).
    subst r r'. cbn [run handler].
    unfold trace_of in Hcd, Hcw, Hcr.
    rewrite onDisconnectRpc_eq in Hcd, Hcw, Hcr |- *.
    cbn [snd] in Hcd, Hcw, Hcr.
    destruct (run (failed_attempts n) this) as [s2 t2]. cbn [fst snd] in *.
    rewrite !count_events_app in *.
    destruct (connectWarned this); repeat split; lia.
  - unfold startConnectingRpc_resume, processNewBlocks. run_pool.
    rewrite Hstarted. cbn. rewrite for_each_call_unfolded. reflexivity.
Qed.


End Properties.

(** * Closed instances *)



(** C3 at work: with epoch 1 current, a submission for epoch 0 is dropped. *)
Lemma submitWork_stale_dropped_witness :
  let r := @submitWork Scenario.chain Scenario.miner 0 Scenario.nonce
             Scenario.replies Scenario.second_epoch in
  r = (Returned tt, Scenario.second_epoch,
       [(Log debug (MsgStaleRequest 3 0), Scenario.second_epoch)])
  /\ count_events is_share_credit (trace_of r) = 0%nat
  /\ count_events is_block_submission (trace_of r) = 0%nat
  /\ count_events is_punishment (trace_of r) = 0%nat.
Proof.
  pose proof (@submitWork_stale_dropped Scenario.chain Scenario.miner 0
                Scenario.nonce Scenario.replies Scenario.second_epoch) as Hthm.
  specialize (Hthm ltac:(vm_compute; discriminate)).
  destruct Hthm as (_ & _ & Hs & Hb & Hp & Hr).
  split; [apply Hr; eexists; reflexivity|].
  split; [exact Hs|]. split; [exact Hb | exact Hp].
Defined.

(** C10 at work: a coordinator that failed to connect once has published
    nothing; a submission for request -1 finds no template. *)
Lemma submitWork_before_first_epoch_witness :
  let this := fst (@run Scenario.chain [OpStart 0; OpConnectResolved false]
                     Scenario.fresh) in
  @submitWork Scenario.chain Scenario.miner (-1) Scenario.nonce Scenario.replies this
  = (Returned tt, this, [(Log warn (MsgInvalidRequest 3 (-1)), this)]).
Proof.
  apply (@submitWork_before_first_epoch Scenario.chain [7%nat] "pool" 65536
           [OpStart 0; OpConnectResolved false] Scenario.miner Scenario.nonce
           Scenario.replies "addr" (Buffer.be_bytes 32 5));
    vm_compute; reflexivity.
Defined.

(** C6 at work: the timer fires again one millisecond after a retarget and
    computes the same target. *)
Lemma recalculateTarget_same_target_witness :
  let r := @recalculateTarget Scenario.chain 100001 Scenario.retargeted in
  state_of r = Scenario.retargeted
  /\ published (trace_of r) = []
  /\ nextMiningRequestId (state_of r) = 2.
Proof.
  pose proof (@recalculateTarget_same_target Scenario.chain Scenario.retargeted
                100001 500 65536 0%nat
                (SerializedBlockTemplate.set_header
                   (Header.set_timestamp 100000
                      (Header.set_target (Scenario.hex32 (2 ^ 256 / 65535))
                         (SerializedBlockTemplate.header Scenario.template)))
                   Scenario.template)) as Hthm.
  do 5 (specialize (Hthm ltac:(vm_compute; reflexivity))).
  destruct Hthm as (Hr & Hp & Hn).
  cbv zeta. rewrite Hr. repeat split.
Defined.

(** C5 at work: on [Scenario.streaming] the timer at 100000 ms finds the
    difficulty at 65535; the template of epoch 0 is retargeted where it
    stands and reissued as epoch 1. *)
Lemma recalculateTarget_new_target_witness :
  let r := @recalculateTarget Scenario.chain 100000 Scenario.streaming in
  let retargeted :=
    SerializedBlockTemplate.set_header
      (Header.set_timestamp 100000
         (Header.set_target (Scenario.hex32 (2 ^ 256 / 65535))
            (SerializedBlockTemplate.header Scenario.template)))
      Scenario.template in
  heap (state_of r) = [retargeted]
  /\ LRU.get 0 (miningRequestBlocks (state_of r)) = Some 0%nat
  /\ LRU.get 1 (miningRequestBlocks (state_of r)) = Some 0%nat
  /\ nextMiningRequestId (state_of r) = 2
  /\ recentSubmissions (state_of r) = ∅
  /\ published (trace_of r) = [(1, 0%nat)].
Proof.
  pose proof (@recalculateTarget_new_target Scenario.chain Scenario.streaming
                100000 500 65536 0%nat Scenario.template) as Hthm.
  specialize (Hthm ltac:(vm_compute; reflexivity)).
  specialize (Hthm ltac:(vm_compute; reflexivity)).
  specialize (Hthm ltac:(vm_compute; reflexivity)).
  specialize (Hthm ltac:(vm_compute; reflexivity)).
  specialize (Hthm ltac:(vm_compute; discriminate)).
  cbv zeta in Hthm.
  specialize (Hthm ltac:(vm_compute; split; [discriminate | reflexivity])).
  specialize (Hthm ltac:(vm_compute; discriminate)).
  destruct Hthm as (_ & Hheap & _ & _ & _ & Hn & Hc & Hget & Hd & Htr).
  cbv zeta. rewrite Hheap, Hn, Hc, Hd, Htr. vm_compute. repeat split.
Defined.

(** C4 at work: the miner submits a nonce on epoch 0, then another one,
    then the first again: the third call only logs the duplicate. *)
Lemma duplicate_within_epoch_only_witness :
  let r1 := @submitWork Scenario.chain Scenario.miner 0 Scenario.nonce
              Scenario.replies Scenario.streaming in
  let r2 := @run Scenario.chain
              [OpSubmitWork Scenario.miner 0 Scenario.share_nonce Scenario.replies]
              (state_of r1) in
  let r3 := @submitWork Scenario.chain Scenario.miner 0 Scenario.nonce
              Scenario.replies (fst r2) in
  (count_events is_share_credit (trace_of r1)
   + count_events is_share_credit (trace_of r3) <= 1)%nat
  /\ (count_events is_block_submission (trace_of r1)
      + count_events is_block_submission (trace_of r3) <= 1)%nat
  /\ r3 = (Returned tt, fst r2,
           [(Log warn (MsgDuplicateRequest 3 0 Scenario.nonce), fst r2)])
  /\ recentSubmissions (fst r2) !! 3
     = Some [Scenario.nonce; Scenario.share_nonce].
Proof.
  pose proof (@duplicate_within_epoch_only Scenario.chain Scenario.streaming
                Scenario.miner 0 Scenario.nonce Scenario.replies
                [OpSubmitWork Scenario.miner 0 Scenario.share_nonce Scenario.replies]
                Scenario.miner 0 Scenario.replies) as Hthm.
  specialize (Hthm ltac:(reflexivity)).
  specialize (Hthm ltac:(vm_compute; reflexivity)).
  destruct Hthm as ((Hshares & Hblocks) & Hsecond & _).
  split; [exact Hshares|]. split; [exact Hblocks|]. split.
  - apply (Hsecond "addr"%string (Buffer.be_bytes 32 5) 0%nat Scenario.template
             "addr"%string (Buffer.be_bytes 32 5));
      vm_compute; reflexivity.
  - vm_compute. reflexivity.
Defined.

(** C8 at work: three failed attempts of a coordinator that was started and
    never connected. *)
Lemma outage_retries_and_warns_once_witness :
  let r := @run Scenario.chain (failed_attempts 3) Scenario.connecting in
  count_events is_retry (snd r) = 3%nat
  /\ count_events is_warning (snd r) = 1%nat
  /\ count_events is_poolDisconnected (snd r) = 0%nat
  /\ count_events is_poolDisconnected
       (trace_of (@onDisconnectRpc Scenario.connecting)) = 1%nat.
Proof.
  pose proof (@outage_retries_and_warns_once Scenario.chain Scenario.connecting 3)
    as Hthm.
  specialize (Hthm ltac:(vm_compute; reflexivity)).
  destruct Hthm as ((Hr & Hw & Hd & _) & (Hclose & _) & _).
  split; [exact Hr|]. split; [exact Hw|]. split; [exact Hd | exact Hclose].
Defined.

(** C8 as stated fails: a coordinator with one notifier that is started
    while the node is down goes through an outage (here three failed
    attempts, each followed by its retry, one warning) without any
    [poolDisconnected] notification. *)
Lemma outage_without_poolDisconnected :
  let tr := snd (@run Scenario.chain (OpStart 0 :: failed_attempts 3)
                   Scenario.fresh) in
  webhooks Scenario.fresh = [7%nat]
  /\ count_events is_retry tr = 3%nat
  /\ count_events is_warning tr = 1%nat
  /\ count_events is_poolDisconnected tr = 0%nat
  /\ count_events is_poolDisconnected tr <> 1%nat.
Proof. vm_compute. repeat split. discriminate. Qed.



(** * The scenarios of the specification, run *)

(** Start-up: the pool starts, connects and publishes its first template. *)
Example startup_trace :
  events (snd (@run Scenario.chain
                 [OpStart 0; OpConnectResolved true; OpTemplate Scenario.template]
                 Scenario.fresh))
  = [SharesStart; Log info MsgStartingStratum; StratumStart;
     Log info MsgConnectingToNode; RpcOnCloseOn; RpcTryConnect;
     Webhook 7 poolConnected; Log info MsgConnected; Log info MsgListening;
     RpcBlockTemplateStream; SetInterval RecalculateTarget 10000;
     StratumNewWork 0 0%nat].
Proof. vm_compute. reflexivity. Qed.

(** Share but not block: the digest [2 ^ 24 - 1] is above the header target
    [2 ^ 16] and below the pool target [2 ^ 240]. *)
Example share_but_not_block :
  events (trace_of (@submitWork Scenario.chain Scenario.miner 0
                      Scenario.share_nonce Scenario.replies Scenario.streaming))
  = [Log debug MsgValidShare; SharesSubmitShare "addr"].
Proof. vm_compute. reflexivity. Qed.

(** Malformed submission: a nonce that does not encode gets the client
    punished, after it was recorded. *)
Example malformed_submission_punished :
  let r := @submitWork Scenario.chain Scenario.miner 0 "zz" Scenario.replies
             Scenario.streaming in
  events (trace_of r) = [PeersPunish 3]
  /\ recentSubmissions (state_of r) !! 3 = Some ["zz"%string].
Proof. vm_compute. split; reflexivity. Qed.

(** Duplicate across epochs: the nonce submitted on epoch 0 and again on
    epoch 1 is taken both times. *)
Example duplicate_across_epochs :
  let ops := [OpSubmitWork Scenario.miner 0 Scenario.nonce Scenario.replies;
              OpTemplate Scenario.template;
              OpSubmitWork Scenario.miner 1 Scenario.nonce Scenario.replies] in
  let r := @run Scenario.chain ops Scenario.streaming in
  count_events is_share_credit (snd r) = 2%nat
  /\ count_events is_block_submission (snd r) = 2%nat
  /\ count_events is_warning (snd r) = 0%nat
  /\ recentSubmissions (fst r) !! 3 = Some [Scenario.nonce].
Proof. vm_compute. repeat split. Qed.

(** Upstream drop: after a close signal and two failed attempts, the
    stratum server was told to wait, the one notifier heard
    [poolDisconnected] once, one warning was logged and two retries armed. *)
Example upstream_drop :
  let r := @run Scenario.chain (OpRpcClosed :: failed_attempts 2)
             Scenario.streaming in
  count_events is_poolDisconnected (snd r) = 1%nat
  /\ count_events is_warning (snd r) = 1%nat
  /\ count_events is_retry (snd r) = 2%nat
  /\ head (events (snd r)) = Some StratumWaitForWork.
Proof. vm_compute. repeat split. Qed.

(** * Further properties *)

#[local] Instance passes_no_verdict_composable : Composable passes_no_verdict.
Proof.
  split.
  - intros this. reflexivity.
  - intros s1 s2 s3 t1 t2 H1 H2. unfold passes_no_verdict in *.
    now rewrite events_app, List.filter_app, H1, H2.
Qed.

#[local] Instance keeps_coherent_composable : Composable keeps_coherent.
Proof.
  split.
  - intros this Hk. exact Hk.
  - intros s1 s2 s3 t1 t2 H1 H2 Hk. auto.
Qed.

Section Deduper.
Context `{Chain}.

(** X1. After [addWorkSubmission(clientId, randomness)] the duplicates are
    those of before and the pair just added: the nonce is a duplicate for
    that client, for no other client, and no other nonce becomes one. *)
Theorem addWorkSubmission_isDuplicateSubmission
    clientId randomness this clientId' randomness' :
  isDuplicateSubmission (state_of (addWorkSubmission clientId randomness this))
    clientId' randomness'
  = isDuplicateSubmission this clientId' randomness'
    || (bool_decide (clientId' = clientId) && bool_decide (randomness' = randomness)).
Proof.
  unfold addWorkSubmission, isDuplicateSubmission, modify, state_of. cbn [fst snd].
  destruct (decide (clientId' = clientId)) as [->|Hne].
  - rewrite bool_decide_eq_true_2 by reflexivity. cbn [andb].
    destruct (recentSubmissions this !! clientId) as [subs|] eqn:E;
      cbn [recentSubmissions set_recentSubmissions]; rewrite lookup_insert_eq.
    + rewrite <- bool_decide_or. apply bool_decide_ext.
      rewrite elem_of_app, list_elem_of_singleton. reflexivity.
    + cbn [orb]. apply bool_decide_ext. apply list_elem_of_singleton.
  - rewrite (bool_decide_eq_false_2 _ Hne). cbn [andb]. rewrite orb_false_r.
    destruct (recentSubmissions this !! clientId);
      cbn [recentSubmissions set_recentSubmissions];
      rewrite lookup_insert_ne by congruence; reflexivity.
Qed.

End Deduper.

Section Verdicts.
Context `{Chain}.

(** X2. A submission that passed the staleness, cache and duplicate checks
    and whose header does not encode gets its client punished, once, and
    nothing else: no block, no share. Its nonce was recorded before the
    encoding was tried, so the same submission again in the same epoch is
    dropped as a duplicate and is not punished a second time. *)
Theorem submitWork_malformed_punished_once
    client miningRequestId randomness replies replies' this
    publicAddress graffiti l original :
  StratumServerClient.publicAddress client = Some publicAddress ->
  StratumServerClient.graffiti client = Some graffiti ->
  miningRequestId = nextMiningRequestId this - 1 ->
  LRU.get miningRequestId (miningRequestBlocks this) = Some l ->
  heap this !! l = Some original ->
  isDuplicateSubmission this (StratumServerClient.id client) randomness = false ->
  mineableHeaderString (composed_header graffiti randomness original) = None ->
  let r := submitWork client miningRequestId randomness replies this in
  let this' := recorded (StratumServerClient.id client) randomness this in
  r = (Returned tt, this', [(PeersPunish (StratumServerClient.id client), this')])
  /\ submitWork client miningRequestId randomness replies' this'
     = (Returned tt, this',
        [(Log warn (MsgDuplicateRequest (StratumServerClient.id client)
                      miningRequestId randomness), this')]).
Proof.
  intros Hpa Hg Hid Hget Hheap Hdup Henc r this'.
  pose proof (recorded_frame (StratumServerClient.id client) randomness this)
    as (_ & _ & _ & Hn & Hc & Hh).
  split.
  - subst r.
    rewrite (submitWork_accepted _ _ _ _ _ _ _ _ _ Hpa Hg Hid Hget Hheap Hdup).
    unfold on_its_merits. now rewrite Henc.
  - apply (submitWork_duplicate _ _ _ _ _ publicAddress graffiti l original);
      try assumption.
    + subst this'. now rewrite Hn.
    + subst this'. now rewrite Hc.
    + subst this'. now rewrite Hh.
    + apply isDuplicateSubmission_recorded_self.
Qed.



End Verdicts.

Section OnlySubmissions.
Context `{Chain}.

Lemma no_verdict_counts tr :
  List.filter is_verdict (events tr) = [] ->
  count_events is_share_credit tr = O
  /\ count_events is_block_submission tr = O
  /\ count_events is_punishment tr = O.
Proof.
  unfold count_events, events, is_verdict.
  induction tr as [|[e s] tr IH]; [intros _; repeat split|].
  cbn. destruct (is_share_credit e), (is_block_submission e), (is_punishment e);
    cbn; first [discriminate | exact IH].
Qed.

Lemma handler_passes_no_verdict op :
  is_submission op = false -> respects passes_no_verdict (handler op).
Proof.
  intros Hop.
  destruct op; try discriminate Hop; cbn [handler]; unfold_handlers;
    unfold recalculateTarget, retarget_in_place, distributeNewBlock;
    cbv zeta;
    respects_walk ltac:(first
      [ apply respects_modify; intros ?; reflexivity
      | apply respects_call; intros ?; reflexivity ]).
Qed.

Lemma submitWork_verdict_counts client miningRequestId randomness replies this :
  let tr := trace_of (submitWork client miningRequestId randomness replies this) in
  (count_events is_share_credit tr <= 1)%nat
  /\ (count_events is_block_submission tr <= 1)%nat
  /\ (count_events is_punishment tr <= 1)%nat.
Proof.
  destruct (submitWork_dropped_or_accepted client miningRequestId randomness
              replies this) as [Hdrop | (_ & pa & g & o & Heq)]; cbv zeta.
  - apply dropped_counts in Hdrop as (Hb & Hs & Hp). lia.
  - rewrite Heq.
    destruct (on_its_merits_counts (StratumServerClient.id client) pa g
                randomness replies o
                (recorded (StratumServerClient.id client) randomness this))
      as [Hb Hs].
    repeat split; [exact Hs | exact Hb |].
    unfold on_its_merits, count_events.
    destruct (mineableHeaderString _) as [headerBytes|];
      cbn -[block_path share_path]; [|lia].
    rewrite events_app, List.filter_app, length_app.
    assert (forall rp bt hh s,
              List.filter is_punishment (events (block_path s rp bt hh)) = [])
      as Hnone.
    { intros rp bt hh s. unfold block_path.
      rewrite events_app, List.filter_app. cbn.
      destruct (added rp); cbn; [|reflexivity].
      apply (filter_webhook_calls is_punishment). reflexivity. }
    destruct (Buffer.compare _ (Buffer.from_hex _) =? 1);
      destruct (Buffer.compare _ (target _) =? 1);
      rewrite ?Hnone; cbn; lia.
Qed.

(** X4. Only [submitWork] passes a verdict on a miner's work: no other
    handler (lifecycle, connection loop, close signal, template ingestion,
    retarget timer, status timer) submits a block, credits a share or
    punishes a client. One submission gives at most one of each, so along
    any sequence of handlers the shares credited, the blocks submitted and
    the punishments each number at most the submissions received. *)
Theorem verdicts_only_on_submissions :
  (forall op this,
     is_submission op = false ->
     List.filter is_verdict (events (trace_of (handler op this))) = [])
  /\ (forall ops this,
        let tr := snd (run ops this) in
        let submissions := length (List.filter is_submission ops) in
        (count_events is_share_credit tr <= submissions)%nat
        /\ (count_events is_block_submission tr <= submissions)%nat
        /\ (count_events is_punishment tr <= submissions)%nat).
Proof.
  split.
  - intros op this Hop. apply (handler_passes_no_verdict op Hop this).
  - intros ops. induction ops as [|op ops IH]; intros this; cbv zeta.
    + cbn. repeat split; lia.
    + cbn [run List.filter].
      assert ((count_events is_share_credit (trace_of (handler op this))
               <= if is_submission op then 1 else 0)%nat
              /\ (count_events is_block_submission (trace_of (handler op this))
                  <= if is_submission op then 1 else 0)%nat
              /\ (count_events is_punishment (trace_of (handler op this))
                  <= if is_submission op then 1 else 0)%nat) as Hop.
      { destruct (is_submission op) eqn:E.
        - destruct op; try discriminate E. cbn [handler].
          apply submitWork_verdict_counts.
        - pose proof (handler_passes_no_verdict op E this) as Hq.
          apply no_verdict_counts in Hq as (Hs & Hb & Hp). lia. }
      unfold trace_of in Hop.
      destruct (handler op this) as [[o s1] t1]. cbn [snd] in Hop.
      specialize (IH s1). cbv zeta in IH.
      destruct (run ops s1) as [s2 t2]. cbn [snd] in *.
      rewrite !count_events_app.
      destruct (is_submission op); cbn [length]; lia.
Qed.

End OnlySubmissions.

Section Lifecycle.
Context `{Chain}.

(** X5. [start()] is idempotent: a second call, whatever interval it is
    given, changes nothing and makes no call, so a started pool is not
    started twice (one listener on the close signal, one status interval,
    one connection attempt). After [start()] the pool is started; on a pool
    that was started already the first call does nothing either. *)
Theorem start_idempotent this statusInterval statusInterval' :
  run [OpStart statusInterval; OpStart statusInterval'] this
  = run [OpStart statusInterval] this
  /\ started (fst (run [OpStart statusInterval] this)) = true
  /\ (started this = true -> run [OpStart statusInterval] this = (this, [])).
Proof.
  cbn [run handler]. unfold start, startConnectingRpc. run_pool.
  destruct (started this) eqn:E; cbn.
  - rewrite E. cbn. repeat split.
  - destruct (0 <? statusInterval); cbn; repeat split; discriminate.
Qed.

(** X6. [stop()] changes the [started] flag and nothing else (counter, work
    cache, deduper, head and timer tokens are kept), and is idempotent: a
    second call makes no call. Once the pool is stopped, a connection
    attempt that was pending resolves into nothing: no retry is armed, no
    webhook is notified and the template stream is not requested. *)
Theorem stop_idempotent_and_ends_connection_loop this connected :
  fst (run [OpStop] this) = set_started false this
  /\ run [OpStop; OpStop] this = run [OpStop] this
  /\ run [OpStop; OpConnectResolved connected] this = run [OpStop] this
  /\ (started this = false -> run [OpStop] this = (this, [])).
Proof.
  cbn [run handler]. unfold stop, startConnectingRpc_resume. run_pool.
  destruct (started this) eqn:E; cbn.
  - destruct (stopResolve this), (connectTimeout this),
      (recalculateTargetInterval this), (notifyStatusInterval this);
      cbn; rewrite ?app_nil_r; repeat split; discriminate.
  - rewrite E. cbn. repeat split.
    destruct this; cbn in *; subst; reflexivity.
Qed.

End Lifecycle.

Section Status.
Context `{Chain}.

(** X7. [getStatus(publicAddress)] reads and never writes. The status it
    returns carries the pool's name, the hash rate estimated from the pool's
    share rate, the pending shares and the ban count as given, and as
    [miners] the number of subscribed clients, unsubscribed ones not
    counted. An address status is there exactly when an address that is not
    empty was asked for; its [miners] are the subscribed clients with that
    address, never more than the pool's [miners]. The share subsystem is
    asked twice, or four times with an address. *)
Theorem getStatus_counts_subscribed publicAddress replies this :
  let r := getStatus publicAddress replies this in
  let subscribed := List.filter StratumServerClient.subscribed (clients replies) in
  let asked :=
    match publicAddress with
    | Some address => negb (bool_decide (address = EmptyString))
    | None => false
    end in
  state_of r = this
  /\ events (trace_of r)
     = [SharesShareRate None; SharesPendingPayout None]
       ++ (if asked
           then [SharesShareRate publicAddress; SharesPendingPayout publicAddress]
           else [])
  /\ match outcome_of r with
     | Thrown => False
     | Returned status =>
         MiningStatusMessage.name status = name this
         /\ MiningStatusMessage.hashRate status
            = hashRate_of (poolShareRate replies) (difficulty this)
         /\ MiningStatusMessage.miners status = Z.of_nat (length subscribed)
         /\ 0 <= MiningStatusMessage.miners status
            <= Z.of_nat (length (clients replies))
         /\ MiningStatusMessage.sharesPending status = poolSharesPending replies
         /\ MiningStatusMessage.banCount status = banCount replies
         /\ match MiningStatusMessage.addressStatus status with
            | None => asked = false
            | Some a =>
                asked = true
                /\ Some (MiningStatusMessage.publicAddress a) = publicAddress
                /\ MiningStatusMessage.addressHashRate a
                   = hashRate_of (addressShareRate replies) (difficulty this)
                /\ MiningStatusMessage.addressSharesPending a
                   = addressSharesPending replies
                /\ MiningStatusMessage.addressMiners a
                   = Z.of_nat (length (List.filter
                       (fun c => bool_decide
                                   (StratumServerClient.publicAddress c
                                    = publicAddress))
                       subscribed))
                /\ 0 <= MiningStatusMessage.addressMiners a
                   <= MiningStatusMessage.miners status
            end
     end.
Proof.
  intros r subscribed asked.
  pose proof (List.filter_length_le StratumServerClient.subscribed
                (clients replies)) as Hle.
  fold subscribed in Hle.
  subst r asked. unfold getStatus, estimateHashRate. run_pool.
  fold subscribed.
  destruct publicAddress as [address|]; cbn.
  2:{ repeat split; lia. }
  destruct (bool_decide (address = EmptyString)); cbn.
  { repeat split; lia. }
  pose proof (List.filter_length_le
                (fun c => match StratumServerClient.publicAddress c with
                          | Some a => bool_decide (a = address)
                          | None => false
                          end) subscribed) as Hle'.
  repeat split; try lia.
  f_equal. f_equal. apply List.filter_ext. intros c.
  destruct (StratumServerClient.publicAddress c) as [a|].
  - apply bool_decide_ext. split; congruence.
  - symmetry. apply bool_decide_eq_false. discriminate.
Qed.

(** X8. [notifyStatus()] reads and never writes: it takes the pool-wide
    status (no address status), logs it, and hands that same status to
    every webhook, once each. *)
Theorem notifyStatus_notifies_each_webhook replies this :
  let r := notifyStatus replies this in
  let status :=
    MiningStatusMessage.mk (name this)
      (hashRate_of (poolShareRate replies) (difficulty this))
      (Z.of_nat (length (List.filter StratumServerClient.subscribed
                           (clients replies))))
      (poolSharesPending replies) (banCount replies) None in
  outcome_of r = Returned tt
  /\ state_of r = this
  /\ events (trace_of r)
     = [SharesShareRate None; SharesPendingPayout None;
        Log debug (MsgPoolStatus status)]
       ++ map (fun w => Webhook w (poolStatus status)) (webhooks this)
  /\ count_events is_poolStatus (trace_of r) = length (webhooks this).
Proof.
  intros r status.
  assert (r = (Returned tt, this,
               [(SharesShareRate None, this); (SharesPendingPayout None, this);
                (Log debug (MsgPoolStatus status), this)]
               ++ map (fun w => (Webhook w (poolStatus status), this))
                    (webhooks this))) as Hr.
  { subst r. unfold notifyStatus, getStatus, estimateHashRate. run_pool.
    rewrite for_each_call_unfolded. reflexivity. }
  rewrite Hr. unfold outcome_of, state_of, trace_of, count_events. cbn [fst snd].
  rewrite events_app, List.filter_app, length_app.
  unfold events. rewrite map_map. cbn [fst map List.filter is_poolStatus length].
  assert (forall ws : list nat,
            length (List.filter is_poolStatus
                      (map (fun w => Webhook w (poolStatus status)) ws))
            = length ws) as Hall.
  { induction ws as [|w ws IH]; [reflexivity|]. cbn. now rewrite IH. }
  rewrite Hall. repeat split.
Qed.

End Status.

Section Ingestion.
Context `{Chain}.

(** The coordinator after a template with its [previousBlockInfo] went
    through the loop of [processNewBlocks]. *)
Lemma processNewBlocks_body_returns payload info this :
  SerializedBlockTemplate.previousBlockInfo payload = Some info ->
  let l := length (heap this) in
  let this' :=
    set_recentSubmissions ∅
      (set_miningRequestBlocks
         (LRU.set (nextMiningRequestId this) l (miningRequestBlocks this))
         (set_nextMiningRequestId (nextMiningRequestId this + 1)
            (set_currentHeadTimestamp (Some (PreviousBlockInfo.timestamp info))
               (set_currentHeadDifficulty
                  (Some (Target_toDifficulty
                           (BigIntUtils.fromBytes
                              (Buffer.from_hex (PreviousBlockInfo.target info)))))
                  (set_recalculateTargetInterval
                     (Some (IntervalToken RECALCULATE_TARGET_TIMEOUT))
                     (set_heap (heap this ++ [payload]) this)))))) in
  outcome_of (processNewBlocks_body payload this) = Returned tt
  /\ state_of (processNewBlocks_body payload this) = this'
  /\ events (trace_of (processNewBlocks_body payload this))
     = match recalculateTargetInterval this with
       | Some token => [ClearInterval token]
       | None => []
       end
       ++ [SetInterval RecalculateTarget RECALCULATE_TARGET_TIMEOUT;
           StratumNewWork (nextMiningRequestId this) l]
  /\ published (trace_of (processNewBlocks_body payload this))
     = [(nextMiningRequestId this, l)].
Proof.
  intros Hinfo. unfold processNewBlocks_body, restartCalculateTargetInterval,
    distributeNewBlock. run_pool. rewrite Hinfo. cbn.
  destruct (recalculateTargetInterval this); cbn; repeat split.
Qed.

Lemma LRU_set_entries {V} key (value : V) c n :
  LRU.capacity c = S n ->
  LRU.entries (LRU.set key value c)
  = (key, value)
    :: firstn n (List.filter (fun e => negb (fst e =? key)) (LRU.entries c)).
Proof. intros Hcap. unfold LRU.set. cbn. now rewrite Hcap. Qed.


Lemma stop_leaves_all_but_started this :
  state_of (stop this) = set_started false this
  /\ published (trace_of (stop this)) = [].
Proof.
  unfold stop. run_pool.
  destruct (started this) eqn:E; cbn.
  - destruct (stopResolve this), (connectTimeout this),
      (recalculateTargetInterval this), (notifyStatusInterval this);
      split; reflexivity.
  - split; [|reflexivity]. destruct this; cbn in *; subst; reflexivity.
Qed.

(** X10. A template of the stream without [previousBlockInfo] is fatal:
    the two error logs are written and the pool stops, exactly as [stop()]
    would; no epoch is published and the counter, the work cache and the
    deduper are as before. The rejected object stays behind in the store,
    unreferenced. *)
Theorem processNewBlocks_fatal_without_previousBlockInfo payload this :
  SerializedBlockTemplate.previousBlockInfo payload = None ->
  let r := processNewBlocks_step payload this in
  let this1 := set_heap (heap this ++ [payload]) this in
  state_of r = state_of (stop this1)
  /\ events (trace_of r)
     = [Log error MsgFatalError; Log error MsgRenderedError]
       ++ events (trace_of (stop this1))
  /\ started (state_of r) = false
  /\ published (trace_of r) = []
  /\ nextMiningRequestId (state_of r) = nextMiningRequestId this
  /\ miningRequestBlocks (state_of r) = miningRequestBlocks this
  /\ recentSubmissions (state_of r) = recentSubmissions this.
Proof.
  intros Hinfo r this1.
  assert (r = match stop this1 with
              | (o, s, t) =>
                  (o, s, [(Log error MsgFatalError, this1);
                          (Log error MsgRenderedError, this1)] ++ t)
              end) as Hr.
  { subst r. unfold processNewBlocks_step, try_catch, processNewBlocks_body.
    run_pool. rewrite Hinfo. cbn. fold this1.
    destruct (stop this1) as [[o s] t]. reflexivity. }
  destruct (stop_leaves_all_but_started this1) as [Hstop Hquiet].
  rewrite Hr. unfold state_of, trace_of in *.
  destruct (stop this1) as [[o s] t]. cbn [fst snd] in *. subst s.
  repeat split. cbn. exact Hquiet.
Qed.

End Ingestion.

Ltac pool_fields :=
  cbn [webhooks started stopResolve connectWarned connectTimeout name
       nextMiningRequestId miningRequestBlocks recentSubmissions difficulty
       target currentHeadTimestamp currentHeadDifficulty
       recalculateTargetInterval notifyStatusInterval heap
       set_started set_stopResolve set_connectWarned set_connectTimeout
       set_nextMiningRequestId set_miningRequestBlocks set_recentSubmissions
       set_currentHeadTimestamp set_currentHeadDifficulty
       set_recalculateTargetInterval set_notifyStatusInterval set_heap] in *.

Section Coherence.
Context `{Chain}.

Lemma LRU_get_In key (c : LRU.t loc) l :
  LRU.get key c = Some l -> In (key, l) (LRU.entries c).
Proof.
  unfold LRU.get. intros Hget.
  destruct (List.find _ _) as [[k v]|] eqn:E; [|discriminate].
  apply find_some in E as [Hin Hk]. cbn in *.
  apply Z.eqb_eq in Hk. injection Hget as <-. now subst k.
Qed.

Lemma LRU_get_head key (c : LRU.t loc) l rest :
  LRU.entries c = (key, l) :: rest -> LRU.get key c = Some l.
Proof. intros E. unfold LRU.get. rewrite E. cbn. now rewrite Z.eqb_refl. Qed.

(** Publishing the object at a live location under the current counter
    value, the head being known, leaves the coordinator coherent. *)
Lemma coherent_published this l :
  cache_live this ->
  (l < length (heap this))%nat ->
  is_Some (currentHeadTimestamp this) ->
  is_Some (currentHeadDifficulty this) ->
  coherent
    (set_recentSubmissions ∅
       (set_miningRequestBlocks
          (LRU.set (nextMiningRequestId this) l (miningRequestBlocks this))
          (set_nextMiningRequestId (nextMiningRequestId this + 1) this))).
Proof.
  intros (Hn & Hcap & Hall) Hl Hts Hd.
  unfold coherent, cache_live. pool_fields.
  rewrite (LRU_set_entries _ _ _ 11 Hcap).
  split; [split; [lia | split; [exact Hcap|]] | split].
  - constructor; [cbn; lia|]. apply Forall_take.
    apply Forall_forall. intros entry Hin.
    apply list_elem_of_In, filter_In in Hin as [Hin _].
    rewrite Forall_forall in Hall. apply list_elem_of_In, Hall in Hin. lia.
  - intros Hz. lia.
  - intros _. split; [exact Hts|]. split; [exact Hd|].
    eexists l, _. f_equal. f_equal. lia.
Qed.

Lemma cache_live_heap this heap' :
  cache_live this ->
  (length (heap this) <= length heap')%nat ->
  cache_live (set_heap heap' this).
Proof.
  intros (Hn & Hcap & Hall) Hlen. unfold cache_live. pool_fields.
  repeat split; try assumption.
  eapply Forall_impl; [exact Hall|]. cbn. intros entry [? ?]. lia.
Qed.

Lemma processNewBlocks_body_coherent payload :
  respects keeps_coherent (processNewBlocks_body payload).
Proof.
  intros this (Hlive & Hzero & Hpos).
  pose proof (cache_live_heap this (heap this ++ [payload]) Hlive
                ltac:(rewrite length_app; lia)) as Hlive'.
  destruct (SerializedBlockTemplate.previousBlockInfo payload) as [info|] eqn:E.
  - destruct (processNewBlocks_body_returns payload info this E)
      as (_ & Hs & _).
    rewrite Hs.
    apply (coherent_published
             (set_currentHeadTimestamp (Some (PreviousBlockInfo.timestamp info))
                (set_currentHeadDifficulty
                   (Some (Target_toDifficulty
                            (BigIntUtils.fromBytes
                               (Buffer.from_hex (PreviousBlockInfo.target info)))))
                   (set_recalculateTargetInterval
                      (Some (IntervalToken RECALCULATE_TARGET_TIMEOUT))
                      (set_heap (heap this ++ [payload]) this))))
             (length (heap this))).
    + exact Hlive'.
    + pool_fields. rewrite length_app. cbn. lia.
    + pool_fields. eauto.
    + pool_fields. eauto.
  - unfold processNewBlocks_body. run_pool. rewrite E. cbn.
    split; [exact Hlive'|]. split; assumption.
Qed.

(** What [recalculateTarget] leaves behind when the target changed. *)
Lemma recalculateTarget_fires this newTime headTimestamp headDifficulty l
    latestBlock :
  currentHeadTimestamp this = Some headTimestamp ->
  currentHeadDifficulty this = Some headDifficulty ->
  LRU.get (nextMiningRequestId this - 1) (miningRequestBlocks this) = Some l ->
  heap this !! l = Some latestBlock ->
  let newTarget :=
    Target_fromDifficulty
      (Target_calculateDifficulty newTime headTimestamp headDifficulty) in
  (newTarget
   =? BigIntUtils.fromBytes
        (Buffer.from_hex (Header.target (SerializedBlockTemplate.header latestBlock))))
  = false ->
  let retargeted :=
    SerializedBlockTemplate.set_header
      (Header.set_timestamp newTime
         (Header.set_target
            (Buffer.toString_hex (BigIntUtils.toBytesBE newTarget 32))
            (SerializedBlockTemplate.header latestBlock)))
      latestBlock in
  outcome_of (recalculateTarget newTime this) = Returned tt
  /\ state_of (recalculateTarget newTime this)
     = set_recentSubmissions ∅
         (set_miningRequestBlocks
            (LRU.set (nextMiningRequestId this) l (miningRequestBlocks this))
            (set_nextMiningRequestId (nextMiningRequestId this + 1)
               (set_heap (<[l := retargeted]> (heap this)) this))).
Proof.
  intros Hts Hd Hl Hh newTarget Hnew retargeted.
  unfold recalculateTarget, retarget_in_place, distributeNewBlock.
  run_pool. rewrite Hts, Hd. cbn. rewrite Hl. cbn. rewrite Hh. cbn.
  fold newTarget. rewrite Hnew. cbn. rewrite Hh. cbn. rewrite Hts, Hd. cbn.
  split; reflexivity.
Qed.

(** What [recalculateTarget] does when it does not publish: it returns or
    throws with the coordinator as it was. *)
Lemma recalculateTarget_quiet this newTime :
  state_of (recalculateTarget newTime this) = this
  \/ exists headTimestamp headDifficulty l latestBlock,
       currentHeadTimestamp this = Some headTimestamp
       /\ currentHeadDifficulty this = Some headDifficulty
       /\ LRU.get (nextMiningRequestId this - 1) (miningRequestBlocks this)
          = Some l
       /\ heap this !! l = Some latestBlock
       /\ (Target_fromDifficulty
             (Target_calculateDifficulty newTime headTimestamp headDifficulty)
           =? BigIntUtils.fromBytes
                (Buffer.from_hex
                   (Header.target (SerializedBlockTemplate.header latestBlock))))
          = false.
Proof.
  destruct (currentHeadTimestamp this) as [ts|] eqn:Hts.
  2:{ left. unfold recalculateTarget. run_pool. now rewrite Hts. }
  destruct (currentHeadDifficulty this) as [d|] eqn:Hd.
  2:{ left. unfold recalculateTarget. run_pool. rewrite Hts, Hd. reflexivity. }
  destruct (LRU.get (nextMiningRequestId this - 1) (miningRequestBlocks this))
    as [l|] eqn:Hl.
  2:{ left. unfold recalculateTarget. run_pool. rewrite Hts, Hd. cbn.
      now rewrite Hl. }
  destruct (heap this !! l) as [latestBlock|] eqn:Hh.
  2:{ left. unfold recalculateTarget. run_pool. rewrite Hts, Hd. cbn.
      rewrite Hl. cbn. now rewrite Hh. }
  destruct (Target_fromDifficulty (Target_calculateDifficulty newTime ts d)
            =? BigIntUtils.fromBytes
                 (Buffer.from_hex
                    (Header.target (SerializedBlockTemplate.header latestBlock))))
    eqn:Hsame.
  - left. unfold recalculateTarget. run_pool. rewrite Hts, Hd. cbn.
    rewrite Hl. cbn. rewrite Hh. cbn. now rewrite Hsame.
  - right. exists ts, d, l, latestBlock. auto.
Qed.

Lemma recalculateTarget_coherent newTime :
  respects keeps_coherent (recalculateTarget newTime).
Proof.
  intros this Hk.
  destruct (recalculateTarget_quiet this newTime)
    as [Hs | (ts & d & l & latestBlock & Hts & Hd & Hl & Hh & Hnew)].
  - now rewrite Hs.
  - destruct (recalculateTarget_fires this newTime ts d l latestBlock
                Hts Hd Hl Hh Hnew) as [_ Hs].
    rewrite Hs. destruct Hk as (Hlive & _).
    apply (coherent_published
             (set_heap (<[l := _]> (heap this)) this) l).
    + apply cache_live_heap; [exact Hlive | now rewrite length_insert].
    + pool_fields. rewrite length_insert. eapply lookup_lt_Some; eauto.
    + pool_fields. rewrite Hts. eauto.
    + pool_fields. rewrite Hd. eauto.
Qed.

Lemma handler_coherent op : respects keeps_coherent (handler op).
Proof.
  destruct op; cbn [handler];
    unfold start, stop, submitWork, startConnectingRpc_resume,
      startConnectingRpc, onDisconnectRpc, processNewBlocks_step,
      notifyStatus, getStatus, estimateHashRate, processNewBlocks,
      addWorkSubmission;
    cbv zeta;
    respects_walk ltac:(first
      [ apply processNewBlocks_body_coherent
      | apply recalculateTarget_coherent
      | apply respects_modify; intros ?; cbv beta;
        try (match goal with
             | |- context [match ?x with _ => _ end] => destruct x
             end);
        intros Hk; exact Hk
      | apply respects_call; intros ? Hk; exact Hk ]).
Qed.

(** Every coordinator reached from construction is coherent. *)
Lemma reachable_coherent webhooks poolName poolDifficulty ops :
  coherent (fst (run ops (constructor webhooks poolName poolDifficulty))).
Proof.
  apply (run_respects keeps_coherent handler_coherent).
  unfold coherent, cache_live. cbn.
  repeat split; try lia; try constructor.
Qed.

(** What coherence gives once an epoch was published: the heads are known
    and the current id reads a template of the store. *)
Lemma coherent_current this :
  coherent this ->
  0 < nextMiningRequestId this ->
  exists headTimestamp headDifficulty l latestBlock,
    currentHeadTimestamp this = Some headTimestamp
    /\ currentHeadDifficulty this = Some headDifficulty
    /\ LRU.get (nextMiningRequestId this - 1) (miningRequestBlocks this) = Some l
    /\ heap this !! l = Some latestBlock.
Proof.
  intros ((Hn & Hcap & Hall) & Hzero & Hpos) Hp.
  destruct (Hpos Hp) as ([ts Hts] & [d Hd] & l & rest & E).
  pose proof (LRU_get_head _ _ l rest E) as Hget.
  destruct (heap this !! l) as [latestBlock|] eqn:Hheap.
  - exists ts, d, l, latestBlock. auto.
  - apply lookup_ge_None in Hheap. rewrite Forall_forall in Hall.
    specialize (Hall (nextMiningRequestId this - 1, l)).
    rewrite E in Hall. specialize (Hall ltac:(left)). cbn in Hall. lia.
Qed.

End Coherence.

Section Reachable.
Context `{Chain}.

(** X11. In every coordinator reached from construction, whatever the
    handlers that ran: an id of the work cache was handed out (it is below
    the counter and not negative) and reads a template that is in the
    store; and once an epoch was published the head timestamp and
    difficulty are known and the current id, [nextMiningRequestId - 1],
    is in the cache. *)
Theorem work_cache_entries_are_live webhooks poolName poolDifficulty ops :
  let this := fst (run ops (constructor webhooks poolName poolDifficulty)) in
  (forall miningRequestId l,
     LRU.get miningRequestId (miningRequestBlocks this) = Some l ->
     0 <= miningRequestId < nextMiningRequestId this
     /\ is_Some (heap this !! l))
  /\ (0 < nextMiningRequestId this ->
      is_Some (currentHeadTimestamp this)
      /\ is_Some (currentHeadDifficulty this)
      /\ is_Some (LRU.get (nextMiningRequestId this - 1)
                    (miningRequestBlocks this)))
  /\ 0 <= nextMiningRequestId this.
Proof.
  intros this.
  destruct (reachable_coherent webhooks poolName poolDifficulty ops)
    as ((Hn & Hcap & Hall) & Hzero & Hpos).
  fold this in Hn, Hcap, Hall, Hzero, Hpos. clearbody this.
  split; [|split; [|exact Hn]].
  - intros miningRequestId l Hget. apply LRU_get_In in Hget.
    rewrite Forall_forall in Hall. apply list_elem_of_In, Hall in Hget.
    cbn in Hget. split; [lia|]. apply lookup_lt_is_Some. lia.
  - intros Hp. destruct (Hpos Hp) as (Hts & Hd & l & rest & E).
    split; [exact Hts|]. split; [exact Hd|].
    rewrite (LRU_get_head _ _ l rest E). eauto.
Qed.

(** X12. Once an epoch was published, a submission by a client with an
    address and a graffiti that names the current epoch always finds its
    template: it is never answered with the warning of an invalid request,
    but dropped as a duplicate or recorded and taken on its merits. *)
Theorem submitWork_current_epoch_found
    webhooks poolName poolDifficulty ops client randomness replies
    publicAddress graffiti :
  let this := fst (run ops (constructor webhooks poolName poolDifficulty)) in
  0 < nextMiningRequestId this ->
  StratumServerClient.publicAddress client = Some publicAddress ->
  StratumServerClient.graffiti client = Some graffiti ->
  exists l original,
    LRU.get (nextMiningRequestId this - 1) (miningRequestBlocks this) = Some l
    /\ heap this !! l = Some original
    /\ submitWork client (nextMiningRequestId this - 1) randomness replies this
       = if isDuplicateSubmission this (StratumServerClient.id client) randomness
         then (Returned tt, this,
               [(Log warn (MsgDuplicateRequest (StratumServerClient.id client)
                             (nextMiningRequestId this - 1) randomness), this)])
         else on_its_merits (StratumServerClient.id client) publicAddress
                graffiti randomness replies original
                (recorded (StratumServerClient.id client) randomness this).
Proof.
  intros this Hp Hpa Hg.
  destruct (coherent_current this
              (reachable_coherent webhooks poolName poolDifficulty ops) Hp)
    as (ts & d & l & original & _ & _ & Hget & Hheap).
  exists l, original. split; [exact Hget|]. split; [exact Hheap|].
  destruct (isDuplicateSubmission this (StratumServerClient.id client) randomness)
    eqn:Hdup.
  - eapply submitWork_duplicate; eauto.
  - eapply submitWork_accepted; eauto.
Qed.


(** X14. In a coordinator reached from construction, a retarget that
    changes the target reissues the very object of the current epoch: after
    it the old id and the new id both read, from the work cache, the one
    template with the new target and the new timestamp, so the old epoch no
    longer shows the target it was published with. No object is added to the
    store and no other object changes. *)
Theorem recalculateTarget_reissues_same_object
    webhooks poolName poolDifficulty ops newTime
    headTimestamp headDifficulty l latestBlock :
  let this := fst (run ops (constructor webhooks poolName poolDifficulty)) in
  currentHeadTimestamp this = Some headTimestamp ->
  currentHeadDifficulty this = Some headDifficulty ->
  LRU.get (nextMiningRequestId this - 1) (miningRequestBlocks this) = Some l ->
  heap this !! l = Some latestBlock ->
  let newTarget :=
    Target_fromDifficulty
      (Target_calculateDifficulty newTime headTimestamp headDifficulty) in
  newTarget
  <> BigIntUtils.fromBytes
       (Buffer.from_hex (Header.target (SerializedBlockTemplate.header latestBlock))) ->
  let this' := state_of (recalculateTarget newTime this) in
  let retargeted :=
    SerializedBlockTemplate.set_header
      (Header.set_timestamp newTime
         (Header.set_target
            (Buffer.toString_hex (BigIntUtils.toBytesBE newTarget 32))
            (SerializedBlockTemplate.header latestBlock)))
      latestBlock in
  let read id := LRU.get id (miningRequestBlocks this')
                   ≫= (fun l => heap this' !! l) in
  read (nextMiningRequestId this - 1) = Some retargeted
  /\ read (nextMiningRequestId this) = Some retargeted
  /\ nextMiningRequestId this' = nextMiningRequestId this + 1
  /\ length (heap this') = length (heap this)
  /\ (forall l', l' <> l -> heap this' !! l' = heap this !! l').
Proof.
  intros this Hts Hd Hget Hheap newTarget Hnew this' retargeted read.
  apply Z.eqb_neq in Hnew.
  destruct (recalculateTarget_fires this newTime headTimestamp headDifficulty l
              latestBlock Hts Hd Hget Hheap Hnew) as [_ Hs].
  destruct (reachable_coherent webhooks poolName poolDifficulty ops)
    as ((Hn & Hcap & Hall) & Hzero & Hpos).
  fold this in Hn, Hcap, Hall, Hzero, Hpos. clearbody this.
  assert (0 < nextMiningRequestId this) as Hp.
  { apply LRU_get_In in Hget. rewrite Forall_forall in Hall.
    apply list_elem_of_In, Hall in Hget. cbn in Hget. lia. }
  destruct (Hpos Hp) as (_ & _ & l0 & rest & E).
  assert (l0 = l) as ->.
  { pose proof (LRU_get_head _ _ l0 rest E) as Hget'. congruence. }
  assert (heap this' !! l = Some retargeted) as Hread.
  { subst this'. rewrite Hs. pool_fields.
    apply list_lookup_insert_eq. eapply lookup_lt_Some; eauto. }
  subst read. cbv beta.
  assert (LRU.entries (miningRequestBlocks this')
          = (nextMiningRequestId this, l)
            :: (nextMiningRequestId this - 1, l)
            :: firstn 10 (List.filter
                            (fun e => negb (fst e =? nextMiningRequestId this))
                            rest)) as Hentries.
  { subst this'. rewrite Hs. pool_fields.
    rewrite (LRU_set_entries _ _ _ 11 Hcap), E. cbn [List.filter fst].
    replace (nextMiningRequestId this - 1 =? nextMiningRequestId this)
      with false by (symmetry; apply Z.eqb_neq; lia).
    reflexivity. }
  repeat split.
  - unfold LRU.get. rewrite Hentries. cbn [List.find fst].
    replace (nextMiningRequestId this =? nextMiningRequestId this - 1)
      with false by (symmetry; apply Z.eqb_neq; lia).
    rewrite Z.eqb_refl. cbn. exact Hread.
  - unfold LRU.get. rewrite Hentries. cbn [List.find fst].
    rewrite Z.eqb_refl. cbn. exact Hread.
  - subst this'. now rewrite Hs.
  - subst this'. rewrite Hs. pool_fields. apply length_insert.
  - intros l' Hne. subst this'. rewrite Hs. pool_fields.
    apply list_lookup_insert_ne. congruence.
Qed.

End Reachable.

Section PoolTarget.
Context `{Chain}.

Lemma toString_hex_length bs :
  String.length (Buffer.toString_hex bs) = (2 * length bs)%nat.
Proof.
  induction bs as [|b bs IH]; [reflexivity|].
  cbn [Buffer.toString_hex String.length length]. rewrite IH. lia.
Qed.

(** X15. The target that [getTarget()] hands to miners is fixed at
    construction: whatever handlers ran since (retargets rewrite the target
    of a template's header, never the pool's), it is the 64 hex digits of
    the 32-byte image of [Target.fromDifficulty(poolDifficulty)], decodes to
    the [target] buffer that shares are checked against, and, for a target
    on 256 bits, reads back as that number. Difficulty and webhooks are
    those of construction as well. *)
Theorem getTarget_fixed_at_construction notifiers poolName poolDifficulty ops :
  let this := fst (run ops (constructor notifiers poolName poolDifficulty)) in
  getTarget this
  = Buffer.toString_hex
      (BigIntUtils.toBytesBE (Target_fromDifficulty poolDifficulty) 32)
  /\ String.length (getTarget this) = 64%nat
  /\ Buffer.from_hex (getTarget this) = target this
  /\ (0 <= Target_fromDifficulty poolDifficulty < 2 ^ 256 ->
      BigIntUtils.fromBytes (Buffer.from_hex (getTarget this))
      = Target_fromDifficulty poolDifficulty)
  /\ difficulty this = poolDifficulty
  /\ webhooks this = notifiers.
Proof.
  intros this.
  pose proof (run_respects keeps_constants handler_constants ops
                (constructor notifiers poolName poolDifficulty))
    as (Ht & Hd & Hw & _).
  fold this in Ht, Hd, Hw. clearbody this.
  cbn [target difficulty webhooks constructor] in Ht, Hd, Hw.
  unfold getTarget. rewrite Ht.
  split; [reflexivity|]. split.
  { rewrite toString_hex_length. unfold BigIntUtils.toBytesBE.
    now rewrite be_bytes_length. }
  split; [apply from_hex_toString_hex|]. split; [|split; assumption].
  intros Hrange. rewrite from_hex_toString_hex.
  unfold BigIntUtils.fromBytes, BigIntUtils.toBytesBE.
  apply be_value_be_bytes_small.
  change (256 ^ Z.of_nat 32) with (2 ^ 256). exact Hrange.
Qed.

End PoolTarget.

Section HashRate.
Context `{Chain}.


End HashRate.

Section Connected.
Context `{Chain}.

(** X17. On a started pool, a connection attempt that succeeds notifies
    every webhook of [poolConnected], once each and before anything else,
    logs twice, requests the template stream, and clears [connectWarned]
    and nothing else: the next outage is warned of again, once, whether or
    not the previous one was. *)
Theorem connect_notifies_and_rearms_warning this :
  started this = true ->
  let r := startConnectingRpc_resume true this in
  outcome_of r = Returned tt
  /\ state_of r = set_connectWarned false this
  /\ events (trace_of r)
     = map (fun w => Webhook w poolConnected) (webhooks this)
       ++ [Log info MsgConnected; Log info MsgListening; RpcBlockTemplateStream]
  /\ count_events is_warning
       (snd (run [OpConnectResolved true; OpConnectResolved false;
                  OpConnectTimeout; OpConnectResolved false] this))
     = 1%nat.
Proof.
  intros Hstarted r.
  assert (r = (Returned tt, set_connectWarned false this,
               map (fun w => (Webhook w poolConnected, this)) (webhooks this)
               ++ [(Log info MsgConnected, set_connectWarned false this);
                   (Log info MsgListening, set_connectWarned false this);
                   (RpcBlockTemplateStream, set_connectWarned false this)]))
    as Hr.
  { subst r. unfold startConnectingRpc_resume, processNewBlocks. run_pool.
    rewrite Hstarted. cbn. rewrite for_each_call_unfolded. reflexivity. }
  split; [now rewrite Hr|]. split; [now rewrite Hr|]. split.
  { rewrite Hr. unfold trace_of. cbn [snd]. rewrite events_app.
    unfold events at 1. rewrite map_map. reflexivity. }
  cbn [run handler]. fold r. rewrite Hr.
  unfold startConnectingRpc_resume, startConnectingRpc. run_pool.
  repeat (rewrite Hstarted; cbn).
  unfold count_events. rewrite <- app_assoc, events_app, List.filter_app.
  rewrite (filter_webhook_calls is_warning (fun _ => poolConnected))
    by reflexivity.
  reflexivity.
Qed.

End Connected.

(** * Further closed instances *)

(** X2 at work: on epoch 0 of [Scenario.streaming] a nonce of two characters
    does not encode; the miner is punished, and its second try is a
    duplicate. *)
Lemma submitWork_malformed_punished_once_witness :
  let this' := recorded 3 "zz" Scenario.streaming in
  @submitWork Scenario.chain Scenario.miner 0 "zz" Scenario.replies
    Scenario.streaming
  = (Returned tt, this', [(PeersPunish 3, this')])
  /\ @submitWork Scenario.chain Scenario.miner 0 "zz" Scenario.replies this'
     = (Returned tt, this', [(Log warn (MsgDuplicateRequest 3 0 "zz"), this')]).
Proof.
  pose proof (@submitWork_malformed_punished_once Scenario.chain Scenario.miner
                0 "zz"%string Scenario.replies Scenario.replies
                Scenario.streaming "addr"%string (Buffer.be_bytes 32 5) 0%nat
                Scenario.template) as Hthm.
  do 7 (specialize (Hthm ltac:(vm_compute; reflexivity))).
  exact Hthm.
Defined.



(** X10 at work: a template without [previousBlockInfo] stops
    [Scenario.streaming]. *)
Lemma processNewBlocks_fatal_without_previousBlockInfo_witness :
  let orphan :=
    SerializedBlockTemplate.mk
      (Header.mk "aa" (Scenario.hex32 (2 ^ 16)) 1000 "" "" "") None "" in
  let r := @processNewBlocks_step Scenario.chain orphan Scenario.streaming in
  started Scenario.streaming = true
  /\ started (state_of r) = false
  /\ published (trace_of r) = []
  /\ nextMiningRequestId (state_of r) = nextMiningRequestId Scenario.streaming.
Proof.
  pose proof (@processNewBlocks_fatal_without_previousBlockInfo Scenario.chain
                (SerializedBlockTemplate.mk
                   (Header.mk "aa" (Scenario.hex32 (2 ^ 16)) 1000 "" "" "")
                   None "")
                Scenario.streaming) as Hthm.
  specialize (Hthm ltac:(reflexivity)).
  destruct Hthm as (_ & _ & Hs & Hp & Hn & _).
  split; [vm_compute; reflexivity|].
  split; [exact Hs|]. split; [exact Hp | exact Hn].
Defined.

(** X12 at work: on [Scenario.streaming], reached from construction by a
    start, a successful connection and one template, a submission for
    epoch 0 finds its template. *)
Lemma submitWork_current_epoch_found_witness :
  let this :=
    fst (@run Scenario.chain
           [OpStart 0; OpConnectResolved true; OpTemplate Scenario.template]
           (@constructor Scenario.chain [7%nat] "pool" 65536)) in
  exists l original,
    LRU.get (nextMiningRequestId this - 1) (miningRequestBlocks this) = Some l
    /\ heap this !! l = Some original.
Proof.
  pose proof (@submitWork_current_epoch_found Scenario.chain [7%nat]
                "pool"%string 65536
                [OpStart 0; OpConnectResolved true; OpTemplate Scenario.template]
                Scenario.miner Scenario.nonce Scenario.replies
                "addr"%string (Buffer.be_bytes 32 5)) as Hthm.
  specialize (Hthm ltac:(vm_compute; reflexivity)).
  specialize (Hthm ltac:(reflexivity)).
  specialize (Hthm ltac:(reflexivity)).
  destruct Hthm as (l & original & Hget & Hheap & _).
  exists l, original. split; [exact Hget | exact Hheap].
Defined.

(** X14 at work: the retarget of [Scenario.streaming] at 100000 ms leaves
    epochs 0 and 1 on one object. *)
Lemma recalculateTarget_reissues_same_object_witness :
  let this :=
    fst (@run Scenario.chain
           [OpStart 0; OpConnectResolved true; OpTemplate Scenario.template]
           (@constructor Scenario.chain [7%nat] "pool" 65536)) in
  let this' := state_of (@recalculateTarget Scenario.chain 100000 this) in
  let read id := LRU.get id (miningRequestBlocks this')
                   ≫= (fun l => heap this' !! l) in
  read (nextMiningRequestId this - 1) = read (nextMiningRequestId this)
  /\ length (heap this') = length (heap this)
  /\ nextMiningRequestId this = 1.
Proof.
  pose proof (@recalculateTarget_reissues_same_object Scenario.chain [7%nat]
                "pool"%string 65536
                [OpStart 0; OpConnectResolved true; OpTemplate Scenario.template]
                100000 500 65536 0%nat Scenario.template) as Hthm.
  specialize (Hthm ltac:(vm_compute; reflexivity)).
  specialize (Hthm ltac:(vm_compute; reflexivity)).
  specialize (Hthm ltac:(vm_compute; reflexivity)).
  specialize (Hthm ltac:(vm_compute; reflexivity)).
  specialize (Hthm ltac:(vm_compute; discriminate)).
  destruct Hthm as (Hold & Hnew & _ & Hlen & _).
  split; [exact (eq_trans Hold (eq_sym Hnew))|].
  split; [exact Hlen|]. vm_compute. reflexivity.
Defined.


(** X17 at work: [Scenario.connecting] connects, the node goes away, and
    the two failed attempts that follow are warned of once. *)
Lemma connect_notifies_and_rearms_warning_witness :
  let r := startConnectingRpc_resume true Scenario.connecting in
  events (trace_of r)
  = map (fun w => Webhook w poolConnected) (webhooks Scenario.connecting)
    ++ [Log info MsgConnected; Log info MsgListening; RpcBlockTemplateStream]
  /\ count_events is_warning
       (snd (@run Scenario.chain
               [OpConnectResolved true; OpConnectResolved false;
                OpConnectTimeout; OpConnectResolved false]
               Scenario.connecting))
     = 1%nat.
Proof.
  pose proof (@connect_notifies_and_rearms_warning Scenario.chain
                Scenario.connecting) as Hthm.
  specialize (Hthm ltac:(vm_compute; reflexivity)).
  destruct Hthm as (_ & _ & He & Hw).
  split; [exact He | exact Hw].
Defined.

